(** * Elliott wave forecaster: pivots, waves, triangles and the training set

    A shallow embedding of [elliott_wave_forecast_app.py] and the properties
    of its four algorithmic stages.

    Numbers.  The price series reaches every stage as the numpy float64 array
    [df['Close'].values].  Finite float64 values are modelled as exact
    rationals ([Q]): rounding, overflow and the sign of zero are not
    modelled.  A numpy division does not raise on a zero divisor, it yields
    [inf], [-inf] or [nan]; the type [float64] below keeps these three
    outcomes apart from the finite ones, and the comparisons follow IEEE
    (every comparison with [nan] is false). *)

From Stdlib Require Import String DecimalString QArith Qabs ZArith List Bool Lia Lqa Sorted.
Import ListNotations.

Open Scope Z_scope.

(** ** Exceptions and the error monad *)

Inductive exn : Type :=
| IndexError
| KeyError.

Definition result (A : Type) : Type := (exn + A)%type.

Definition ret {A} (a : A) : result A := inr a.
Definition raise {A} (e : exn) : result A := inl e.
Definition bind {A B} (m : result A) (k : A -> result B) : result B :=
  match m with
  | inl e => inl e
  | inr a => k a
  end.

Notation "x <- m ;; k" := (bind m (fun x => k))
  (at level 61, m at next level, right associativity).

(** ** Numbers *)

Definition Qltb (x y : Q) : bool := negb (Qle_bool y x).

Inductive float64 : Type :=
| Fin (q : Q)
| PInf
| NInf
| NaN.

(** [x / y] on two finite float64 values. *)
Definition np_div (x y : Q) : float64 :=
  if Qeq_bool y 0 then
    if Qltb 0 x then PInf else if Qltb x 0 then NInf else NaN
  else Fin (x / y).

(** [c / d] for a float64 [c] and a non-zero integer [d]. *)
Definition np_div_int (c : float64) (d : Z) : float64 :=
  match c with
  | Fin q => Fin (q / inject_Z d)
  | PInf => if 0 <? d then PInf else NInf
  | NInf => if 0 <? d then NInf else PInf
  | NaN => NaN
  end.

(** [c > t], [c <= t] and [c >= t] for a finite [t]. *)
Definition np_gt (c : float64) (t : Q) : bool :=
  match c with
  | Fin q => Qltb t q
  | PInf => true
  | NInf | NaN => false
  end.

Definition np_le (c : float64) (t : Q) : bool :=
  match c with
  | Fin q => Qle_bool q t
  | NInf => true
  | PInf | NaN => false
  end.

Definition np_ge (c : float64) (t : Q) : bool :=
  match c with
  | Fin q => Qle_bool t q
  | PInf => true
  | NInf | NaN => false
  end.

(** ** Python sequences *)

(** [l[k]], with Python's negative indices; out of range raises. *)
Definition py_index {A} (l : list A) (k : Z) : result A :=
  let n := Z.of_nat (length l) in
  let k' := if k <? 0 then k + n else k in
  if (k' <? 0) || (n <=? k') then raise IndexError
  else match nth_error l (Z.to_nat k') with
       | Some a => ret a
       | None => raise IndexError
       end.

(** [l[a:b]], with Python's negative and out-of-range bounds. *)
Definition py_bound (n k : Z) : Z :=
  let k' := if k <? 0 then k + n else k in
  Z.max 0 (Z.min n k').

Definition py_slice {A} (l : list A) (a b : Z) : list A :=
  let n := Z.of_nat (length l) in
  let a' := py_bound n a in
  let b' := py_bound n b in
  firstn (Z.to_nat (b' - a')) (skipn (Z.to_nat a') l).

(** ** Pivot detection *)

(** A pivot is the tuple [(index, price)]. *)
Abbreviation Pivot := (Z * Q)%type (only parsing).
Definition index (p : Pivot) : Z := fst p.
Definition price (p : Pivot) : Q := snd p.

(** The local variables of [zigzag_detector] that the loop updates. *)
Record zz_state : Type := mk_zz {
  pivots : list Pivot;
  last : Q;
  trend_up : option bool;
  last_index : Z
}.

(** One iteration of the loop body, at index [i] with [prices[i] = p]. *)
Definition zz_step (threshold : Q) (s : zz_state) (i : Z) (p : Q) : zz_state :=
  let change := np_div (p - last s) (last s) in
  let trend :=
    match trend_up s with
    | None => np_gt change 0
    | Some b => b
    end in
  if trend && np_le change (- threshold) then
    mk_zz (pivots s ++ [(last_index s, last s)]) p (Some false) i
  else if negb trend && np_ge change threshold then
    mk_zz (pivots s ++ [(last_index s, last s)]) p (Some true) i
  else
    mk_zz (pivots s) (last s) (Some trend) (last_index s).

(** [for i in range(i, i + len(ps))], [ps] being [prices[i:]]. *)
Fixpoint zz_loop (threshold : Q) (s : zz_state) (i : Z) (ps : list Q) : zz_state :=
  match ps with
  | [] => s
  | p :: ps' => zz_loop threshold (zz_step threshold s i p) (i + 1) ps'
  end.

Definition zigzag_detector (prices : list Q) (threshold : Q) : result (list Pivot) :=
  last0 <- py_index prices 0 ;;
  let s := zz_loop threshold (mk_zz [] last0 None 0) 1 (py_slice prices 1 (Z.of_nat (length prices))) in
  plast <- py_index prices (-1) ;;
  ret (pivots s ++ [(Z.of_nat (length prices) - 1, plast)]).

(** ** Wave feature extraction *)

(** One row of the wave table: the dict appended to [waves]. *)
Record Wave : Type := mk_Wave {
  Start : Z;
  End_ : Z;
  Change : float64;
  Duration : Z;
  Slope : float64;
  Volatility : float64;
  Direction : Z
}.

(** A wave table: the rows built by [extract_wave_features] and the column
    ['Label'], absent until [label_and_prepare] assigns it. *)
Record DataFrame : Type := mk_DataFrame {
  rows : list Wave;
  Label : option (list string)
}.

Definition pd_DataFrame (waves : list Wave) : DataFrame := mk_DataFrame waves None.

Definition df_len (df : DataFrame) : Z := Z.of_nat (length (rows df)).

(** [df['Label'] = labels], an update of the frame itself. *)
Definition df_set_Label (df : DataFrame) (labels : list string) : DataFrame :=
  mk_DataFrame (rows df) (Some labels).

(** [df.iloc[a:b]] *)
Definition df_iloc_slice (df : DataFrame) (a b : Z) : DataFrame :=
  mk_DataFrame (py_slice (rows df) a b)
               (option_map (fun l => py_slice l a b) (Label df)).

(** [df.iloc[j]]: the row, with its label when the column exists. *)
Definition df_iloc (df : DataFrame) (j : Z) : result (Wave * option string) :=
  w <- py_index (rows df) j ;;
  match Label df with
  | None => ret (w, None)
  | Some ls => l <- py_index ls j ;; ret (w, Some l)
  end.

(** [row['Label']] *)
Definition row_Label (r : Wave * option string) : result string :=
  match snd r with
  | Some l => ret l
  | None => raise KeyError
  end.

Section Extraction.

(** [np.std], numpy's population standard deviation. *)
Variable np_std : list Q -> float64.

(** The body of the loop of [extract_wave_features] on one pivot pair. *)
Definition wave_of (prices : list Q) (a b : Pivot) : Wave :=
  let '(i1, p1) := a in
  let '(i2, p2) := b in
  let duration := i2 - i1 in
  let change := np_div (p2 - p1) p1 in
  let slope := if negb (duration =? 0) then np_div_int change duration else Fin 0 in
  let volatility := if 0 <? duration then np_std (py_slice prices i1 i2) else Fin 0 in
  let direction := if np_gt change 0 then 1 else 0 in
  mk_Wave i1 i2 change duration slope volatility direction.

(** [for i in range(len(pivots) - 1)]: the pairs [pivots[i], pivots[i+1]]. *)
Fixpoint wave_rows (prices : list Q) (pivots : list Pivot) : list Wave :=
  match pivots with
  | a :: (b :: _) as rest => wave_of prices a b :: wave_rows prices rest
  | _ => []
  end.

Definition extract_wave_features (prices : list Q) (pivots : list Pivot) : DataFrame :=
  pd_DataFrame (wave_rows prices pivots).

End Extraction.

(** ** Labels and the training set *)

(** [str(n)] *)
Definition str (n : Z) : string := NilZero.string_of_int (Z.to_int n).

(** [range(a, b)] *)
Definition py_range (a b : Z) : list Z :=
  map (fun k => a + Z.of_nat k) (seq 0 (Z.to_nat (b - a))).

(** ['Wave_' + str(i + 1) if i < 5 else 'Unknown'] *)
Definition label_of (i : Z) : string :=
  if i <? 5 then ("Wave_" ++ str (i + 1))%string else "Unknown"%string.

(** The five scalars a wave contributes to a feature vector. *)
Definition wave_features (w : Wave) : list float64 :=
  [Change w; Fin (inject_Z (Duration w)); Slope w; Volatility w;
   Fin (inject_Z (Direction w))].

(** [for j in range(4): wave = window.iloc[j]; features += [...]] *)
Fixpoint features_loop (window : DataFrame) (js : list Z) (features : list float64)
  : result (list float64) :=
  match js with
  | [] => ret features
  | j :: js' =>
      wave <- df_iloc window j ;;
      features_loop window js' (features ++ wave_features (fst wave))
  end.

Definition training_set : Type :=
  (list (list float64) * list string * list float64)%type.

(** The outer loop of [label_and_prepare], appending to [X], [y_class], [y_reg]. *)
Fixpoint prepare_loop (df : DataFrame) (idxs : list Z) (acc : training_set)
  : result training_set :=
  match idxs with
  | [] => ret acc
  | i :: idxs' =>
      let '(X, y_class, y_reg) := acc in
      let window := df_iloc_slice df i (i + 5) in
      features <- features_loop window (py_range 0 4) [] ;;
      r4 <- df_iloc window 4 ;;
      lbl <- row_Label r4 ;;
      r4' <- df_iloc window 4 ;;
      prepare_loop df idxs' (X ++ [features], y_class ++ [lbl], y_reg ++ [Change (fst r4')])
  end.

(** [label_and_prepare(df)]: the frame [df] as the call leaves it, and the
    returned triple. *)
Definition label_and_prepare (df : DataFrame) : result (DataFrame * training_set) :=
  let df := df_set_Label df (map label_of (py_range 0 (df_len df))) in
  ts <- prepare_loop df (py_range 0 (df_len df - 5)) ([], [], []) ;;
  ret (df, ts).

(** ** Triangle patterns *)

(** [[p[1] for j, p in enumerate(sub) if j % 2 == 0]] and its odd twin. *)
Fixpoint at_parity (even : bool) (sub : list Pivot) : list Q :=
  match sub with
  | [] => []
  | p :: sub' =>
      if even then price p :: at_parity false sub' else at_parity true sub'
  end.

(** [all(l[k] < l[k-1] for k in range(1, len(l)))] *)
Fixpoint all_falling (l : list Q) : bool :=
  match l with
  | a :: (b :: _) as t => Qltb b a && all_falling t
  | _ => true
  end.

(** [all(l[k] > l[k-1] for k in range(1, len(l)))] *)
Fixpoint all_rising (l : list Q) : bool :=
  match l with
  | a :: (b :: _) as t => Qltb a b && all_rising t
  | _ => true
  end.

(** The [if]/[elif] chain of [detect_triangles] on the two price lists;
    [and] and [or] evaluate their right operand only when needed. *)
Definition triangle_kind (highs lows : list Q) : result (option string) :=
  if all_falling highs && all_rising lows then ret (Some "Contracting Triangle"%string)
  else
    running <-
      (hl <- py_index highs (-1) ;;
       h0 <- py_index highs 0 ;;
       if Qltb h0 hl then
         ll <- py_index lows (-1) ;;
         l0 <- py_index lows 0 ;;
         ret (Qltb l0 ll)
       else ret false) ;;
    if running then ret (Some "Running Triangle"%string)
    else
      barrier <-
        (hl <- py_index highs (-1) ;;
         h0 <- py_index highs 0 ;;
         if Qeq_bool hl h0 then ret true
         else
           ll <- py_index lows (-1) ;;
           l0 <- py_index lows 0 ;;
           ret (Qeq_bool ll l0)) ;;
      if barrier then ret (Some "Barrier Triangle"%string) else ret None.

(** The body of the loop of [detect_triangles] at window start [i]. *)
Definition triangle_at (pivots : list Pivot) (i : Z) : result (list (Z * string)) :=
  let sub := py_slice pivots i (i + 5) in
  let highs := at_parity true sub in
  let lows := at_parity false sub in
  kind <- triangle_kind highs lows ;;
  match kind with
  | Some name => mid <- py_index sub 2 ;; ret [(index mid, name)]
  | None => ret []
  end.

Fixpoint triangles_loop (pivots : list Pivot) (idxs : list Z) (patterns : list (Z * string))
  : result (list (Z * string)) :=
  match idxs with
  | [] => ret patterns
  | i :: idxs' =>
      new <- triangle_at pivots i ;;
      triangles_loop pivots idxs' (patterns ++ new)
  end.

Definition detect_triangles (pivots : list Pivot) : result (list (Z * string)) :=
  triangles_loop pivots (py_range 0 (Z.of_nat (length pivots) - 4)) [].

(** ** The analysis run *)

(** [st.sidebar.slider("Zigzag Threshold (%)", 1.0, 10.0, 3.5) / 100] for a
    slider position [v]. *)
Definition slider_min : Q := 1.
Definition slider_max : Q := 10.
Definition slider_threshold (v : Q) : Q := v / 100.

Definition not_enough_data : string :=
  "Not enough data to train AI. Adjust the period or interval."%string.

(** What a run shows and fits, in order.  Payloads stay structured: the
    formatting of numbers and the drawing are Streamlit's and Plotly's. *)
Inductive event : Type :=
| st_error (msg : string)
| fit_classifier (X : list (list float64)) (y : list string)
| fit_regressor (X : list (list float64)) (y : list float64)
| st_subheader (title : string)
| st_success_label (label_pred : string)
| st_success_change (price_pred : float64)
| st_plotly_chart (pivots : list Pivot) (triangles : list (Z * string))
                  (price_pred : float64)
| forecast_log_append (label_pred : string) (price_pred : float64).

Section Run.

Variable np_std : list Q -> float64.

(** scikit-learn's two random forests, fitted and queried. *)
Variables classifier regressor : Type.
Variable RandomForestClassifier_fit : list (list float64) -> list string -> classifier.
Variable RandomForestRegressor_fit : list (list float64) -> list float64 -> regressor.
Variable classifier_predict : classifier -> list (list float64) -> list string.
Variable regressor_predict : regressor -> list (list float64) -> list float64.

Definition forecast (X : list (list float64)) (model_class : classifier)
           (model_reg : regressor) (latest_features : list float64)
  : result (string * float64) :=
  pred_class <- py_index (classifier_predict model_class [latest_features]) 0 ;;
  pred_change <- py_index (regressor_predict model_reg [latest_features]) 0 ;;
  ret (pred_class, pred_change).

(** The stages of the run up to the guard. *)
Definition prepare_run (prices : list Q) (threshold : Q)
  : result (list Pivot * list (Z * string) * DataFrame * training_set) :=
  pivots <- zigzag_detector prices threshold ;;
  let waves_df := extract_wave_features np_std prices pivots in
  triangles <- detect_triangles pivots ;;
  r <- label_and_prepare waves_df ;;
  let '(waves_df, ts) := r in
  ret (pivots, triangles, waves_df, ts).

(** The body of [if st.sidebar.button("Run Analysis")], from the price
    array on. *)
Definition run_analysis (prices : list Q) (threshold : Q) : result (list event) :=
  r <- prepare_run prices threshold ;;
  let '(pivots, triangles, waves_df, (X, y_class, y_reg)) := r in
  if Z.of_nat (length X) <? 2 then
    ret [st_error not_enough_data]
  else
    let model_class := RandomForestClassifier_fit X y_class in
    let model_reg := RandomForestRegressor_fit X y_reg in
    latest_input <- py_index X (-1) ;;
    p <- forecast X model_class model_reg latest_input ;;
    let '(label_pred, price_pred) := p in
    ret [fit_classifier X y_class; fit_regressor X y_reg;
         st_subheader "Forecast Results"%string;
         st_success_label label_pred; st_success_change price_pred;
         st_plotly_chart pivots triangles price_pred;
         forecast_log_append label_pred price_pred;
         st_subheader "Forecast History"%string].

End Run.

(** ** Properties stated on pivot sequences *)

(** The price changes between consecutive pivots. *)
Fixpoint deltas (pv : list Pivot) : list Q :=
  match pv with
  | a :: (b :: _) as t => (price b - price a)%Q :: deltas t
  | _ => []
  end.

Definition opposite (d1 d2 : Q) : bool :=
  (Qltb d1 0 && Qltb 0 d2) || (Qltb 0 d1 && Qltb d2 0).

(** Every change is non-zero and consecutive changes have opposite signs. *)
Fixpoint alternating (ds : list Q) : bool :=
  match ds with
  | [] => true
  | d1 :: t =>
      match t with
      | [] => negb (Qeq_bool d1 0)
      | d2 :: _ => opposite d1 d2 && alternating t
      end
  end.

(** The invariant of the loop of [zigzag_detector] on the indices, before
    iteration [i]. *)
Definition idx_inv (i : Z) (s : zz_state) : Prop :=
  StronglySorted Z.lt (map index (pivots s)) /\
  Forall (fun y => y < last_index s) (map index (pivots s)) /\
  last_index s < i /\
  hd (last_index s) (map index (pivots s)) = 0.

(** [d] is a rise ([b] true) or a fall. *)
Definition has_sign (b : bool) (d : Q) : Prop :=
  if b then (0 < d)%Q else (d < 0)%Q.

(** The anchors so far: the pivots emitted and the current anchor. *)
Definition chain (s : zz_state) : list Pivot :=
  pivots s ++ [(last_index s, last s)].

(** The invariant of the loop on the direction of the moves. *)
Definition alt_inv (s : zz_state) : Prop :=
  (0 < last s)%Q /\
  alternating (deltas (chain s)) = true /\
  (pivots s = [] \/
   exists ds d b, deltas (chain s) = ds ++ [d] /\ trend_up s = Some b /\ has_sign b d).

(** ** Properties stated on waves, windows and triangles *)

Definition sum_durations (waves : list Wave) : Z :=
  fold_right Z.add 0 (map Duration waves).

(** The feature vector of the window starting at wave [i]: the five scalars
    of each of the waves [i .. i+3], in that order. *)
Definition window_features (waves : list Wave) (i : nat) : list float64 :=
  flat_map wave_features (firstn 4 (skipn i waves)).

Definition no_wave : Wave := mk_Wave 0 0 NaN 0 NaN NaN 0.

(** A window of five consecutive pivots. *)
Definition window : Type := (Pivot * Pivot * Pivot * Pivot * Pivot)%type.

(** The classification of one window as the specification words it: the
    highs are the pivots at positions 0, 2, 4, the lows those at 1, 3; the
    rules are tried in the order Contracting, Running, Barrier, and the
    emission carries the index of the pivot at position 2. *)
Definition triangle_rule (w : window) : option (Z * string) :=
  let '(p0, p1, p2, p3, p4) := w in
  let contracting :=
    Qltb (price p2) (price p0) && Qltb (price p4) (price p2)
    && Qltb (price p1) (price p3) in
  let running := Qltb (price p0) (price p4) && Qltb (price p1) (price p3) in
  let barrier :=
    Qeq_bool (price p4) (price p0) || Qeq_bool (price p3) (price p1) in
  if contracting then Some (index p2, "Contracting Triangle"%string)
  else if running then Some (index p2, "Running Triangle"%string)
  else if barrier then Some (index p2, "Barrier Triangle"%string)
  else None.

(** The windows of five consecutive pivots, in order. *)
Fixpoint windows (pv : list Pivot) : list window :=
  match pv with
  | [] => []
  | p0 :: t =>
      match t with
      | p1 :: p2 :: p3 :: p4 :: _ => (p0, p1, p2, p3, p4) :: windows t
      | _ => []
      end
  end.

Definition emission (e : option (Z * string)) : list (Z * string) :=
  match e with
  | Some x => [x]
  | None => []
  end.

(** The wave table of the scenario [10,11,12,8,9,15], its two volatilities
    rounded to four decimals. *)
Definition scenario_waves : DataFrame :=
  pd_DataFrame
    [mk_Wave 0 3 (Fin (-0.2)) 3 (Fin (-2 # 30)) (Fin 0.8165) 0;
     mk_Wave 3 5 (Fin (7 # 8)) 2 (Fin (7 # 16)) (Fin 0.5) 1].

(** ** The forecast line of the chart *)

(** [1 + c] and [p * c] for a finite [p] and a float64 [c]. *)
Definition np_add1 (c : float64) : float64 :=
  match c with
  | Fin q => Fin (1 + q)
  | PInf => PInf
  | NInf => NInf
  | NaN => NaN
  end.

Definition np_mul (p : Q) (c : float64) : float64 :=
  match c with
  | Fin q => Fin (p * q)
  | PInf => if Qltb 0 p then PInf else if Qltb p 0 then NInf else NaN
  | NInf => if Qltb 0 p then NInf else if Qltb p 0 then PInf else NaN
  | NaN => NaN
  end.

(** [df.index[k]], the frame holding one row per price; a row of the index
    is named by its position. *)
Definition df_index (prices : list Q) (k : Z) : result Z :=
  py_index (py_range 0 (Z.of_nat (length prices))) k.

(** The dotted line of [fig.add_shape]. *)
Record forecast_line : Type := mk_line {
  x0 : Z;
  y0 : Q;
  x1 : Z;
  y1 : float64
}.

(** [forecast_price] and the four coordinates handed to [fig.add_shape]. *)
Definition forecast_shape (prices : list Q) (pivots : list Pivot) (price_pred : float64)
  : result forecast_line :=
  plast <- py_index pivots (-1) ;;
  p <- py_index prices (index plast) ;;
  let forecast_price := np_mul p (np_add1 price_pred) in
  plast <- py_index pivots (-1) ;;
  a <- df_index prices (index plast) ;;
  plast <- py_index pivots (-1) ;;
  b <- py_index prices (index plast) ;;
  plast <- py_index pivots (-1) ;;
  c <- df_index prices (Z.min (Z.of_nat (length prices) - 1) (index plast + 5)) ;;
  ret (mk_line a b c forecast_price).

(** ** Further properties stated on sequences *)

(** The consecutive pairs of a sequence. *)
Fixpoint pairs {A} (l : list A) : list (A * A) :=
  match l with
  | a :: (b :: _) as t => (a, b) :: pairs t
  | _ => []
  end.

(** The pivot [pv] is a point of the series: [prices[index] == price]. *)
Definition on_series (prices : list Q) (pv : Pivot) : Prop :=
  0 <= index pv /\ nth_error prices (Z.to_nat (index pv)) = Some (price pv).

(** What holds of a wave cut between two pivots in increasing order that
    lie on the series. *)
Definition regular_wave (np_std : list Q -> float64) (prices : list Q) (w : Wave) : Prop :=
  0 < Duration w /\
  Slope w = np_div_int (Change w) (Duration w) /\
  Volatility w = np_std (py_slice prices (Start w) (End_ w)) /\
  Z.of_nat (length (py_slice prices (Start w) (End_ w))) = Duration w.

(** The training set as a function of the rows of the table. *)
Definition training_rows (rs : list Wave) : training_set :=
  (map (window_features rs) (seq 0 (length rs - 5)),
   map (fun i => label_of (Z.of_nat i + 4)) (seq 0 (length rs - 5)),
   map (fun i => Change (nth (i + 4) rs no_wave)) (seq 0 (length rs - 5))).

(** The three names [detect_triangles] can emit. *)
Definition triangle_name (name : string) : Prop :=
  name = "Contracting Triangle"%string \/ name = "Running Triangle"%string \/
  name = "Barrier Triangle"%string.

(** ** Pivot detection over any arithmetic *)

Section AnyArithmetic.

(** The loop of [zigzag_detector] with its float64 computations left open:
    [frac_change p last] is [(p - last) / last], [is_rise c] is [c > 0],
    [reverses_down c] is [c <= -threshold] and [reverses_up c] is
    [c >= threshold].  What is proved of it holds however these round. *)
Variables price_t change_t : Type.
Variable frac_change : price_t -> price_t -> change_t.
Variable is_rise : change_t -> bool.
Variable reverses_down : change_t -> bool.
Variable reverses_up : change_t -> bool.

Record zz_state_with : Type := mk_zz_with {
  pivots_with : list (Z * price_t);
  last_with : price_t;
  trend_up_with : option bool;
  last_index_with : Z
}.

Definition zz_step_with (s : zz_state_with) (i : Z) (p : price_t) : zz_state_with :=
  let change := frac_change p (last_with s) in
  let trend :=
    match trend_up_with s with
    | None => is_rise change
    | Some b => b
    end in
  if trend && reverses_down change then
    mk_zz_with (pivots_with s ++ [(last_index_with s, last_with s)]) p (Some false) i
  else if negb trend && reverses_up change then
    mk_zz_with (pivots_with s ++ [(last_index_with s, last_with s)]) p (Some true) i
  else
    mk_zz_with (pivots_with s) (last_with s) (Some trend) (last_index_with s).

Fixpoint zz_loop_with (s : zz_state_with) (i : Z) (ps : list price_t) : zz_state_with :=
  match ps with
  | [] => s
  | p :: ps' => zz_loop_with (zz_step_with s i p) (i + 1) ps'
  end.

Definition zigzag_detector_with (prices : list price_t) : result (list (Z * price_t)) :=
  last0 <- py_index prices 0 ;;
  let s := zz_loop_with (mk_zz_with [] last0 None 0) 1
                        (py_slice prices 1 (Z.of_nat (length prices))) in
  plast <- py_index prices (-1) ;;
  ret (pivots_with s ++ [(Z.of_nat (length prices) - 1, plast)]).

(** The move from pivot [a] to pivot [b] passed the test of a rise
    ([rise] true) or of a fall, as the loop computes it. *)
Definition passes (rise : bool) (ab : (Z * price_t) * (Z * price_t)) : Prop :=
  let change := frac_change (snd (snd ab)) (snd (fst ab)) in
  if rise then reverses_up change = true else reverses_down change = true.

(** The anchors so far: the pivots emitted and the current anchor. *)
Definition chain_with (s : zz_state_with) : list (Z * price_t) :=
  pivots_with s ++ [(last_index_with s, last_with s)].

End AnyArithmetic.

(** Neighbours differ. *)
Fixpoint alt_bools (ks : list bool) : Prop :=
  match ks with
  | a :: (b :: _) as t => b = negb a /\ alt_bools t
  | _ => True
  end.

(** The instance of the exact model. *)
Definition zigzag_detector_exact (threshold : Q) : list Q -> result (list Pivot) :=
  zigzag_detector_with Q float64
    (fun p anchor => np_div (p - anchor) anchor)
    (fun c => np_gt c 0)
    (fun c => np_le c (- threshold))
    (fun c => np_ge c threshold).

(** * Facts about the Python sequence operations *)

Lemma Qltb_lt (x y : Q) : Qltb x y = true <-> (x < y)%Q.
Proof.
  unfold Qltb. rewrite negb_true_iff. split; intro H.
  - apply Qnot_le_lt. intro L. apply Qle_bool_iff in L. congruence.
  - destruct (Qle_bool y x) eqn:E; [|reflexivity].
    apply Qle_bool_iff in E. exfalso. apply (Qlt_not_le _ _ H E).
Qed.

Lemma py_index_head {A} (a : A) (l : list A) : py_index (a :: l) 0 = ret a.
Proof.
  unfold py_index. cbn [length].
  replace (0 <? 0) with false by reflexivity. cbn [orb].
  destruct (Z.of_nat (S (length l)) <=? 0) eqn:E; [apply Z.leb_le in E; lia|].
  reflexivity.
Qed.

Lemma py_index_nat {A} (l : list A) (k : nat) (a : A) :
  nth_error l k = Some a -> py_index l (Z.of_nat k) = ret a.
Proof.
  intro H. unfold py_index.
  assert (k < length l)%nat by (apply nth_error_Some; congruence).
  destruct (Z.of_nat k <? 0) eqn:E1; [apply Z.ltb_lt in E1; lia|].
  rewrite E1. cbn [orb].
  destruct (Z.of_nat (length l) <=? Z.of_nat k) eqn:E2; [apply Z.leb_le in E2; lia|].
  rewrite Nat2Z.id, H. reflexivity.
Qed.

Lemma py_index_last {A} (l : list A) (d : A) :
  l <> [] -> py_index l (-1) = ret (List.last l d).
Proof.
  intro H. unfold py_index.
  replace (-1 <? 0) with true by reflexivity.
  assert (L : (0 < length l)%nat) by (destruct l; [congruence | cbn; lia]).
  destruct (-1 + Z.of_nat (length l) <? 0) eqn:E1; [apply Z.ltb_lt in E1; lia|].
  cbn [orb].
  destruct (Z.of_nat (length l) <=? -1 + Z.of_nat (length l)) eqn:E2;
    [apply Z.leb_le in E2; lia|].
  replace (Z.to_nat (-1 + Z.of_nat (length l))) with (length l - 1)%nat by lia.
  destruct (exists_last H) as [l' [a ->]].
  rewrite last_last, length_app. cbn [length].
  replace (length l' + 1 - 1)%nat with (length l') by lia.
  rewrite nth_error_app2 by lia. rewrite Nat.sub_diag. reflexivity.
Qed.

Lemma last_indep {A} (l : list A) (d d' : A) :
  l <> [] -> List.last l d = List.last l d'.
Proof.
  induction l as [|a l IH]; [congruence|]. intros _.
  destruct l as [|b l]; [reflexivity|].
  change (List.last (b :: l) d = List.last (b :: l) d').
  apply IH. discriminate.
Qed.

Lemma py_slice_nat {A} (l : list A) (a b : nat) :
  (a <= b <= length l)%nat ->
  py_slice l (Z.of_nat a) (Z.of_nat b) = firstn (b - a) (skipn a l).
Proof.
  intro H. unfold py_slice, py_bound.
  destruct (Z.of_nat a <? 0) eqn:Ea; [apply Z.ltb_lt in Ea; lia|].
  destruct (Z.of_nat b <? 0) eqn:Eb; [apply Z.ltb_lt in Eb; lia|].
  f_equal; [|f_equal]; lia.
Qed.

Lemma py_slice_tail {A} (a : A) (l : list A) :
  py_slice (a :: l) 1 (Z.of_nat (length (a :: l))) = l.
Proof.
  change 1 with (Z.of_nat 1). rewrite py_slice_nat by (cbn; lia).
  cbn [length skipn]. replace (S (length l) - 1)%nat with (length l) by lia.
  apply firstn_all.
Qed.

(** * Pivot detection *)

Lemma zigzag_detector_cons (p0 : Q) (ps : list Q) (threshold : Q) :
  zigzag_detector (p0 :: ps) threshold =
  ret (pivots (zz_loop threshold (mk_zz [] p0 None 0) 1 ps)
       ++ [(Z.of_nat (length (p0 :: ps)) - 1, List.last (p0 :: ps) p0)]).
Proof.
  unfold zigzag_detector.
  rewrite py_index_head. cbn [bind ret].
  rewrite py_slice_tail.
  rewrite (py_index_last (p0 :: ps) p0) by discriminate.
  reflexivity.
Qed.

(** The pivot sequence is returned whatever the threshold. *)
Lemma zigzag_detector_returns (prices : list Q) (threshold : Q) :
  prices <> [] -> exists pv, zigzag_detector prices threshold = inr pv.
Proof.
  destruct prices as [|p0 ps]; [congruence|]. intros _.
  rewrite zigzag_detector_cons. eexists. reflexivity.
Qed.

(** ** The indices *)

Lemma StronglySorted_snoc (l : list Z) (x : Z) :
  StronglySorted Z.lt l -> Forall (fun y => y < x) l ->
  StronglySorted Z.lt (l ++ [x]).
Proof.
  induction 1 as [|a l S IH F]; intro B; cbn.
  - repeat constructor.
  - inversion B; subst. constructor; [auto|].
    apply Forall_app. split; [assumption | repeat constructor; assumption].
Qed.

Lemma idx_inv_emit (i : Z) (s : zz_state) (p : Q) (b : bool) :
  idx_inv i s ->
  idx_inv (i + 1) (mk_zz (pivots s ++ [(last_index s, last s)]) p (Some b) i).
Proof.
  intros (S & F & L & H). unfold idx_inv. cbn [pivots last_index].
  rewrite map_app. cbn [map index fst]. repeat split.
  - apply StronglySorted_snoc; assumption.
  - apply Forall_app. split.
    + eapply Forall_impl; [|exact F]. cbn. intros; lia.
    + repeat constructor. assumption.
  - lia.
  - destruct (map index (pivots s)); cbn in *; assumption.
Qed.

Lemma idx_inv_step (threshold : Q) (i : Z) (s : zz_state) (p : Q) :
  idx_inv i s -> idx_inv (i + 1) (zz_step threshold s i p).
Proof.
  intro I. unfold zz_step.
  repeat match goal with |- context [if ?c then _ else _] => destruct c end;
    try (apply idx_inv_emit; assumption).
  destruct I as (S & F & L & H). unfold idx_inv. cbn [pivots last_index].
  repeat split; try assumption. lia.
Qed.

Lemma idx_inv_loop (threshold : Q) (ps : list Q) :
  forall i s, idx_inv i s ->
    idx_inv (i + Z.of_nat (length ps)) (zz_loop threshold s i ps).
Proof.
  induction ps as [|p ps IH]; intros i s I; cbn [zz_loop length].
  - replace (i + Z.of_nat 0) with i by lia. assumption.
  - replace (i + Z.of_nat (S (length ps))) with (i + 1 + Z.of_nat (length ps)) by lia.
    apply IH, idx_inv_step, I.
Qed.

Lemma zigzag_detector_indices (prices : list Q) (threshold : Q) :
  prices <> [] ->
  exists pv,
    zigzag_detector prices threshold = inr pv /\
    StronglySorted Z.lt (map index pv) /\
    index (List.last pv (0, 0%Q)) = Z.of_nat (length prices) - 1 /\
    (length pv = 1%nat \/ index (hd (0, 0%Q) pv) = 0).
Proof.
  destruct prices as [|p0 ps]; [congruence|]. intros _.
  rewrite zigzag_detector_cons. eexists. split; [reflexivity|].
  assert (I : idx_inv 1 (mk_zz [] p0 None 0)).
  { unfold idx_inv. cbn. repeat split; try constructor; lia. }
  apply (idx_inv_loop threshold ps) in I.
  set (s := zz_loop threshold (mk_zz [] p0 None 0) 1 ps) in *.
  destruct I as (S & F & L & H).
  cbn [length]. rewrite Nat2Z.inj_succ. repeat split.
  - rewrite map_app. cbn [map index fst]. apply StronglySorted_snoc; [assumption|].
    eapply Forall_impl; [|exact F]. cbv beta. intros; lia.
  - rewrite last_last. cbn [index fst]. lia.
  - destruct (pivots s) as [|q qs] eqn:E; [left; reflexivity|].
    right. cbn in *. assumption.
Qed.

(** ** The direction of the moves between pivots *)

Lemma opposite_of_signs (b : bool) (d d' : Q) :
  has_sign b d -> has_sign (negb b) d' -> opposite d d' = true.
Proof.
  unfold opposite. destruct b; cbn; intros H H'.
  - apply orb_true_iff. right. apply andb_true_iff. split; apply Qltb_lt; assumption.
  - apply orb_true_iff. left. apply andb_true_iff. split; apply Qltb_lt; assumption.
Qed.

Lemma has_sign_nonzero (b : bool) (d : Q) :
  has_sign b d -> negb (Qeq_bool d 0) = true.
Proof.
  intro H. apply negb_true_iff. destruct (Qeq_bool d 0) eqn:E; [|reflexivity].
  apply Qeq_bool_iff in E. destruct b; cbn in H; rewrite E in H;
    exfalso; apply (Qlt_irrefl 0 H).
Qed.

Lemma alternating_snoc (ds : list Q) (d d' : Q) :
  alternating (ds ++ [d]) = true -> opposite d d' = true ->
  alternating ((ds ++ [d]) ++ [d']) = true.
Proof.
  intros A O. induction ds as [|x ds IH].
  - cbn. rewrite O. cbn.
    unfold opposite in O. apply orb_true_iff in O.
    destruct O as [O|O]; apply andb_true_iff in O; destruct O as [_ O];
      apply Qltb_lt in O.
    + apply (has_sign_nonzero true). exact O.
    + apply (has_sign_nonzero false). exact O.
  - cbn [app] in *. destruct ds as [|y ds].
    + cbn [app] in *. cbn [alternating] in A |- *.
      apply andb_true_iff in A. destruct A as [A1 A2].
      rewrite A1. cbn [andb]. apply IH. exact A2.
    + cbn [app] in *. cbn [alternating] in A. cbn [alternating].
      apply andb_true_iff in A. destruct A as [A1 A2].
      rewrite A1. cbn [andb]. apply IH. exact A2.
Qed.

Lemma alternating_prefix (l1 l2 : list Q) :
  alternating (l1 ++ l2) = true -> alternating l1 = true.
Proof.
  induction l1 as [|x l1 IH]; intro A; [reflexivity|].
  destruct l1 as [|y l1].
  - cbn [app] in A. destruct l2 as [|z l2]; [exact A|].
    cbn [alternating] in A |- *. apply andb_true_iff in A. destruct A as [O _].
    unfold opposite in O. apply orb_true_iff in O.
    destruct O as [O|O]; apply andb_true_iff in O; destruct O as [O _];
      apply Qltb_lt in O.
    + apply (has_sign_nonzero false). exact O.
    + apply (has_sign_nonzero true). exact O.
  - cbn [app] in A. cbn [alternating] in A |- *.
    apply andb_true_iff in A. destruct A as [O A].
    rewrite O. cbn [andb]. apply IH. exact A.
Qed.

Lemma deltas_snoc (l : list Pivot) (a b : Pivot) :
  deltas (l ++ [a; b]) = deltas (l ++ [a]) ++ [(price b - price a)%Q].
Proof.
  induction l as [|x l IH]; [reflexivity|].
  destruct l as [|y l]; [reflexivity|].
  cbn [app deltas] in *. rewrite IH. reflexivity.
Qed.

Lemma deltas_prefix (l : list Pivot) (a : Pivot) :
  exists t, deltas (l ++ [a]) = deltas l ++ t.
Proof.
  induction l as [|x l [t IH]].
  - exists []. reflexivity.
  - destruct l as [|y l].
    + eexists. cbn. reflexivity.
    + exists t. cbn [app deltas] in *. rewrite IH. reflexivity.
Qed.

(** A reversal out of an upward trend lands below a positive anchor, one
    out of a downward trend lands above it. *)
Lemma reversal_down (threshold anchor p : Q) :
  (0 < threshold)%Q -> (0 < anchor)%Q ->
  np_le (np_div (p - anchor) anchor) (- threshold) = true ->
  (p - anchor < 0)%Q.
Proof.
  intros T A H. unfold np_div in H.
  destruct (Qeq_bool anchor 0) eqn:E.
  - apply Qeq_bool_iff in E. rewrite E in A. exfalso. apply (Qlt_irrefl 0 A).
  - cbn [np_le] in H. apply Qle_bool_iff in H.
    assert (N : ~ (anchor == 0)%Q) by (intro Z; rewrite Z in A; apply (Qlt_irrefl 0 A)).
    assert (M : ((p - anchor) / anchor * anchor <= - threshold * anchor)%Q).
    { apply Qmult_le_compat_r; [exact H | apply Qlt_le_weak; exact A]. }
    rewrite Qmult_comm, Qmult_div_r in M by exact N.
    assert (0 < threshold * anchor)%Q.
    { rewrite <- (Qmult_0_l anchor). apply Qmult_lt_compat_r; assumption. }
    lra.
Qed.

Lemma reversal_up (threshold anchor p : Q) :
  (0 < threshold)%Q -> (0 < anchor)%Q ->
  np_ge (np_div (p - anchor) anchor) threshold = true ->
  (0 < p - anchor)%Q.
Proof.
  intros T A H. unfold np_div in H.
  destruct (Qeq_bool anchor 0) eqn:E.
  - apply Qeq_bool_iff in E. rewrite E in A. exfalso. apply (Qlt_irrefl 0 A).
  - cbn [np_ge] in H. apply Qle_bool_iff in H.
    assert (N : ~ (anchor == 0)%Q) by (intro Z; rewrite Z in A; apply (Qlt_irrefl 0 A)).
    assert (M : (threshold * anchor <= (p - anchor) / anchor * anchor)%Q).
    { apply Qmult_le_compat_r; [exact H | apply Qlt_le_weak; exact A]. }
    rewrite (Qmult_comm (_ / _)), Qmult_div_r in M by exact N.
    assert (0 < threshold * anchor)%Q.
    { rewrite <- (Qmult_0_l anchor). apply Qmult_lt_compat_r; assumption. }
    lra.
Qed.

Lemma alt_inv_emit (s : zz_state) (i : Z) (p : Q) (trend : bool) :
  alt_inv s -> (0 < p)%Q ->
  match trend_up s with None => True | Some b => b = trend end ->
  has_sign (negb trend) (p - last s)%Q ->
  alt_inv (mk_zz (pivots s ++ [(last_index s, last s)]) p (Some (negb trend)) i).
Proof.
  intros (A & Alt & T) P Tr Sg. unfold alt_inv, chain in *.
  cbn [pivots last last_index].
  rewrite <- app_assoc. change ([(last_index s, last s)] ++ [(i, p)]) with [(last_index s, last s); (i, p)].
  rewrite deltas_snoc.
  change (price (i, p)) with p. change (price (last_index s, last s)) with (last s).
  split; [exact P|]. split.
  - destruct T as [E | (ds & d & b & E & Eb & Hs)].
    + rewrite E. cbn. eapply has_sign_nonzero. exact Sg.
    + rewrite E in Alt |- *. apply alternating_snoc; [exact Alt|].
      rewrite Eb in Tr. subst b. eapply opposite_of_signs; eassumption.
  - right. exists (deltas (pivots s ++ [(last_index s, last s)])), (p - last s)%Q, (negb trend).
    repeat split. exact Sg.
Qed.

Lemma alt_inv_step (threshold : Q) (s : zz_state) (i : Z) (p : Q) :
  (0 < threshold)%Q -> (0 < p)%Q ->
  alt_inv s -> alt_inv (zz_step threshold s i p).
Proof.
  intros T P I. unfold zz_step.
  set (change := np_div (p - last s) (last s)).
  set (trend := match trend_up s with None => np_gt change 0 | Some b => b end).
  assert (Tr : match trend_up s with None => True | Some b => b = trend end).
  { subst trend. destruct (trend_up s); auto. }
  destruct trend eqn:Et; cbn [andb negb].
  - destruct (np_le change (- threshold)) eqn:E.
    + apply (alt_inv_emit s i p true I P Tr). cbn.
      eapply reversal_down; [exact T | apply I | exact E].
    + destruct I as (A & Alt & Tk). unfold alt_inv, chain in *. cbn [pivots last last_index].
      repeat split; try assumption.
      destruct Tk as [E0 | (ds & d & b & E1 & Eb & Hs)]; [left; assumption|].
      right. exists ds, d, b. rewrite Eb in Tr. subst b. auto.
  - destruct (np_ge change threshold) eqn:E.
    + apply (alt_inv_emit s i p false I P Tr). cbn.
      eapply reversal_up; [exact T | apply I | exact E].
    + destruct I as (A & Alt & Tk). unfold alt_inv, chain in *. cbn [pivots last last_index].
      repeat split; try assumption.
      destruct Tk as [E0 | (ds & d & b & E1 & Eb & Hs)]; [left; assumption|].
      right. exists ds, d, b. rewrite Eb in Tr. subst b. auto.
Qed.

Lemma alt_inv_loop (threshold : Q) (ps : list Q) :
  (0 < threshold)%Q -> Forall (fun p => 0 < p)%Q ps ->
  forall i s, alt_inv s -> alt_inv (zz_loop threshold s i ps).
Proof.
  intros T F. induction F as [|p ps P F IH]; intros i s I; cbn [zz_loop].
  - exact I.
  - apply IH, alt_inv_step; assumption.
Qed.

(** * The claims on pivot detection *)

(** C1 (as amended).  For a non-empty price series and a threshold in (0,1)
    [zigzag_detector] returns pivots with strictly increasing indices whose
    last index is [len(prices) - 1]; the first index is 0 unless the terminal
    pivot is the only one returned. *)
Theorem zigzag_pivot_indices (prices : list Q) (threshold : Q) :
  prices <> [] -> (0 < threshold)%Q -> (threshold < 1)%Q ->
  exists pv,
    zigzag_detector prices threshold = inr pv /\
    StronglySorted Z.lt (map index pv) /\
    index (List.last pv (0, 0%Q)) = Z.of_nat (length prices) - 1 /\
    (length pv = 1%nat \/ index (hd (0, 0%Q) pv) = 0).
Proof.
  intros NE _ _. apply zigzag_detector_indices. exact NE.
Qed.

Lemma zigzag_pivot_indices_witness :
  exists pv,
    zigzag_detector [10; 11; 12; 8; 9; 15]%Q 0.2%Q = inr pv /\
    StronglySorted Z.lt (map index pv) /\
    index (List.last pv (0, 0%Q)) = Z.of_nat (length [10; 11; 12; 8; 9; 15]%Q) - 1 /\
    (length pv = 1%nat \/ index (hd (0, 0%Q) pv) = 0).
Proof.
  apply zigzag_pivot_indices; [discriminate | reflexivity | reflexivity].
Defined.

(** C1, as stated, fails: a series that never reverses by the threshold
    yields the terminal pivot alone, and its index is not 0. *)
Lemma zigzag_first_pivot_not_zero :
  ~ (exists pv,
       zigzag_detector [10; 11]%Q 0.2%Q = inr pv /\
       index (hd (0, 0%Q) pv) = 0).
Proof.
  intros (pv & E & H). vm_compute in E. injection E as <-. discriminate H.
Qed.

(** C2 (as amended).  On [10,11,12,8,9,15] with threshold 0.2 the pivots are
    (0, 10), (3, 8) and (5, 15): the anchor stays at index 0 until the drop
    to 8 reverses the trend. *)
Theorem zigzag_scenario :
  zigzag_detector [10; 11; 12; 8; 9; 15]%Q 0.2%Q =
  inr [(0, 10%Q); (3, 8%Q); (5, 15%Q)].
Proof. reflexivity. Qed.

(** C2, as stated, fails: the first pivot is not (2, 12). *)
Lemma zigzag_scenario_not_running_high :
  zigzag_detector [10; 11; 12; 8; 9; 15]%Q 0.2%Q <>
  inr [(2, 12%Q); (3, 8%Q); (5, 15%Q)].
Proof. rewrite zigzag_scenario. discriminate. Qed.

(** C4 (as amended).  For positive prices and a threshold in (0,1), the
    price changes between consecutive pivots are non-zero and alternate in
    sign over all the pivots but the terminal one. *)
Theorem zigzag_alternates_before_terminal (prices : list Q) (threshold : Q) :
  prices <> [] -> Forall (fun p => 0 < p)%Q prices ->
  (0 < threshold)%Q -> (threshold < 1)%Q ->
  exists pv,
    zigzag_detector prices threshold = inr pv /\
    alternating (deltas (removelast pv)) = true.
Proof.
  destruct prices as [|p0 ps]; [congruence|]. intros _ F T _.
  rewrite zigzag_detector_cons. eexists. split; [reflexivity|].
  rewrite removelast_last.
  inversion F as [|? ? P0 Fs]; subst.
  assert (I : alt_inv (mk_zz [] p0 None 0)).
  { unfold alt_inv, chain. cbn. auto. }
  apply (alt_inv_loop threshold ps T Fs 1) in I.
  destruct I as (_ & Alt & _). unfold chain in Alt.
  destruct (deltas_prefix (pivots (zz_loop threshold (mk_zz [] p0 None 0) 1 ps))
              (last_index (zz_loop threshold (mk_zz [] p0 None 0) 1 ps),
               last (zz_loop threshold (mk_zz [] p0 None 0) 1 ps))) as [t E].
  rewrite E in Alt. eapply alternating_prefix. exact Alt.
Qed.

Lemma zigzag_alternates_before_terminal_witness :
  exists pv,
    zigzag_detector [100; 101; 79; 96; 76; 92; 75]%Q 0.2%Q = inr pv /\
    alternating (deltas (removelast pv)) = true.
Proof.
  apply zigzag_alternates_before_terminal;
    [discriminate | repeat constructor | reflexivity | reflexivity].
Defined.

(** C4, as stated, fails at the terminal pivot: here the last two changes
    are both falls, with or without the first move counted. *)
Lemma zigzag_terminal_breaks_alternation :
  ~ (exists pv,
       zigzag_detector [100; 101; 79; 96; 76; 92; 75]%Q 0.2%Q = inr pv /\
       (alternating (deltas pv) = true \/ alternating (tl (deltas pv)) = true)).
Proof.
  intros (pv & E & H). vm_compute in E. injection E as <-.
  vm_compute in H. destruct H; discriminate.
Qed.

(** With prices of both signs the changes need not alternate even before
    the terminal pivot: the detector compares fractional changes, whose sign
    is that of the price change only over a positive anchor. *)
Example zigzag_mixed_signs :
  exists pv,
    zigzag_detector [-10; -9; -13; 5; 7; 5]%Q 0.2%Q = inr pv /\
    alternating (deltas (removelast pv)) = false.
Proof. eexists. split; reflexivity. Qed.

(** C6 (as amended).  [zigzag_detector] validates no threshold: on a
    non-empty series it returns a pivot sequence for every threshold, 0 and
    values of 1 or more included. *)
Theorem zigzag_accepts_any_threshold (prices : list Q) (threshold : Q) :
  prices <> [] ->
  exists pv, zigzag_detector prices threshold = inr pv.
Proof. apply zigzag_detector_returns. Qed.

Lemma zigzag_accepts_any_threshold_witness :
  exists pv, zigzag_detector [10; 11]%Q 0%Q = inr pv.
Proof. apply zigzag_accepts_any_threshold. discriminate. Defined.

(** C6, as stated, fails: thresholds 0 and 1 are not rejected. *)
Lemma zigzag_threshold_not_rejected :
  zigzag_detector [10; 11]%Q 0%Q = inr [(1, 11%Q)] /\
  zigzag_detector [10; 11]%Q 1%Q = inr [(1, 11%Q)].
Proof. split; reflexivity. Qed.

(** The run takes its threshold from a slider between 1.0 and 10.0 percent,
    so the value it passes lies in (0,1). *)
Lemma slider_threshold_range (v : Q) :
  (slider_min <= v)%Q -> (v <= slider_max)%Q ->
  (0 < slider_threshold v)%Q /\ (slider_threshold v < 1)%Q.
Proof.
  unfold slider_min, slider_max, slider_threshold. intros L U.
  split.
  - apply Qlt_shift_div_l; [reflexivity | lra].
  - apply Qlt_shift_div_r; [reflexivity | lra].
Qed.

(** * Wave extraction *)

Section ExtractionFacts.

Variable np_std : list Q -> float64.
Variable prices : list Q.

Lemma wave_of_Duration (a b : Pivot) :
  Duration (wave_of np_std prices a b) = index b - index a.
Proof. destruct a, b. reflexivity. Qed.

Lemma wave_rows_length (pv : list Pivot) :
  length (wave_rows np_std prices pv) = (length pv - 1)%nat.
Proof.
  induction pv as [|a pv IH]; [reflexivity|].
  destruct pv as [|b pv]; [reflexivity|].
  cbn [wave_rows length] in *. rewrite IH. lia.
Qed.

Lemma wave_rows_durations (a : Pivot) (pv : list Pivot) :
  sum_durations (wave_rows np_std prices (a :: pv)) =
  index (List.last (a :: pv) a) - index a.
Proof.
  revert a. induction pv as [|b pv IH]; intro a.
  - cbn. lia.
  - change (wave_rows np_std prices (a :: b :: pv))
      with (wave_of np_std prices a b :: wave_rows np_std prices (b :: pv)).
    unfold sum_durations in *. cbn [map fold_right].
    rewrite IH, wave_of_Duration.
    change (List.last (a :: b :: pv) a) with (List.last (b :: pv) a).
    rewrite (last_indep (b :: pv) a b) by discriminate. lia.
Qed.

End ExtractionFacts.

(** C8.  [extract_wave_features] returns [len(pivots) - 1] waves, none for
    zero or one pivot, and their durations add up to the index of the last
    pivot minus the index of the first. *)
Theorem extract_wave_features_count
  (np_std : list Q -> float64) (prices : list Q) (pv : list Pivot) :
  length (rows (extract_wave_features np_std prices pv)) = (length pv - 1)%nat /\
  sum_durations (rows (extract_wave_features np_std prices pv)) =
    index (List.last pv (0, 0%Q)) - index (hd (0, 0%Q) pv) /\
  extract_wave_features np_std prices [] = pd_DataFrame [] /\
  (forall p, extract_wave_features np_std prices [p] = pd_DataFrame []).
Proof.
  unfold extract_wave_features. cbn [rows pd_DataFrame].
  split; [apply wave_rows_length|]. split; [|split; reflexivity].
  destruct pv as [|a pv]; [reflexivity|].
  rewrite wave_rows_durations.
  rewrite (last_indep (a :: pv) (0, 0%Q) a) by discriminate. reflexivity.
Qed.

(** C5, at a zero start price.  The division is carried out: the wave is
    emitted with an infinite change and slope, nothing is rejected. *)
Theorem extract_wave_features_zero_start (np_std : list Q -> float64) :
  extract_wave_features np_std [0; 5]%Q [(0, 0%Q); (1, 5%Q)] =
  pd_DataFrame [mk_Wave 0 1 PInf 1 PInf (np_std [0%Q]) 1].
Proof. reflexivity. Qed.

(** Whatever the end price, a zero start price gives a wave whose change is
    not a finite number. *)
Lemma wave_of_zero_start
  (np_std : list Q -> float64) (prices : list Q) (i1 i2 : Z) (p2 : Q) :
  match Change (wave_of np_std prices (i1, 0%Q) (i2, p2)) with
  | Fin _ => False
  | _ => True
  end.
Proof.
  cbn [wave_of Change]. unfold np_div.
  change (Qeq_bool 0 0) with true. cbv iota.
  destruct (Qltb 0 (p2 - 0)); [exact I|].
  destruct (Qltb (p2 - 0) 0); exact I.
Qed.

(** * Windows of the labelled wave table *)

Lemma py_range_0 (n : nat) : py_range 0 (Z.of_nat n) = map Z.of_nat (seq 0 n).
Proof.
  unfold py_range. rewrite Z.sub_0_r, Nat2Z.id. apply map_ext. intro; lia.
Qed.

Lemma py_range_0_Z (z : Z) : py_range 0 z = map Z.of_nat (seq 0 (Z.to_nat z)).
Proof.
  unfold py_range. rewrite Z.sub_0_r. apply map_ext. intro; lia.
Qed.

Lemma window_index {A} (l : list A) (i j : nat) (x : A) :
  (i + 5 <= length l)%nat -> (j < 5)%nat -> nth_error l (i + j) = Some x ->
  py_index (py_slice l (Z.of_nat i) (Z.of_nat i + 5)) (Z.of_nat j) = ret x.
Proof.
  intros L J H. apply py_index_nat.
  replace (Z.of_nat i + 5) with (Z.of_nat (i + 5)) by lia.
  rewrite py_slice_nat by lia.
  rewrite nth_error_firstn.
  replace (Nat.ltb j (i + 5 - i)) with true by (symmetry; apply Nat.ltb_lt; lia).
  rewrite nth_error_skipn. exact H.
Qed.

Lemma firstn4_skipn {A} (d : A) (l : list A) (i : nat) :
  (i + 4 <= length l)%nat ->
  firstn 4 (skipn i l) = [nth i l d; nth (i + 1) l d; nth (i + 2) l d; nth (i + 3) l d].
Proof.
  revert l. induction i as [|i IH]; intros l L.
  - destruct l as [|a [|b [|c [|e l]]]]; cbn in L; try lia. reflexivity.
  - destruct l as [|a l]; cbn in L; [lia|].
    cbn [skipn Nat.add nth]. apply IH. lia.
Qed.

Section Prepare.

Variable df : DataFrame.

Let n : nat := length (rows df).
Let labels : list string := map label_of (py_range 0 (df_len df)).
Let labelled : DataFrame := df_set_Label df labels.

Lemma labels_nth (k : nat) :
  (k < n)%nat -> nth_error labels k = Some (label_of (Z.of_nat k)).
Proof.
  intro K. unfold labels, df_len. fold n.
  rewrite py_range_0, map_map, nth_error_map, nth_error_seq.
  replace (Nat.ltb k n) with true by (symmetry; apply Nat.ltb_lt; lia).
  reflexivity.
Qed.

Lemma window_row_nat (i j : nat) :
  (i + 5 <= n)%nat -> (j < 5)%nat ->
  df_iloc (df_iloc_slice labelled (Z.of_nat i) (Z.of_nat i + 5)) (Z.of_nat j) =
  ret (nth (i + j) (rows df) no_wave, Some (label_of (Z.of_nat (i + j)))).
Proof.
  intros L J. unfold df_iloc, df_iloc_slice, labelled, df_set_Label.
  cbn [rows Label option_map].
  rewrite (window_index (rows df) i j (nth (i + j) (rows df) no_wave));
    [| exact L | exact J | apply nth_error_nth'; fold n; lia].
  cbn [bind ret].
  rewrite (window_index labels i j (label_of (Z.of_nat (i + j)))).
  - reflexivity.
  - unfold labels, df_len. rewrite length_map, py_range_0, length_map, length_seq.
    exact L.
  - exact J.
  - apply labels_nth. lia.
Qed.

Lemma window_row (i : nat) (j : Z) :
  (i + 5 <= n)%nat -> 0 <= j < 5 ->
  df_iloc (df_iloc_slice labelled (Z.of_nat i) (Z.of_nat i + 5)) j =
  ret (nth (i + Z.to_nat j) (rows df) no_wave,
       Some (label_of (Z.of_nat i + j))).
Proof.
  intros L J. replace j with (Z.of_nat (Z.to_nat j)) at 1 by lia.
  rewrite window_row_nat by (try exact L; lia).
  do 4 f_equal. lia.
Qed.

Lemma window_features_loop (i : nat) :
  (i + 5 <= n)%nat ->
  features_loop (df_iloc_slice labelled (Z.of_nat i) (Z.of_nat i + 5))
                (py_range 0 4) [] =
  ret (window_features (rows df) i).
Proof.
  intro L. change (py_range 0 4) with [0; 1; 2; 3].
  cbn [features_loop].
  rewrite !window_row by (try exact L; lia).
  cbn [bind ret fst features_loop app].
  unfold window_features.
  rewrite (firstn4_skipn no_wave) by (fold n; lia).
  cbn [flat_map]. rewrite app_nil_r, <- !app_assoc.
  replace (i + Z.to_nat 0)%nat with i by lia.
  reflexivity.
Qed.

Lemma prepare_loop_closed (idxs : list nat) :
  Forall (fun i => i + 5 <= n)%nat idxs ->
  forall X y_class y_reg,
    prepare_loop labelled (map Z.of_nat idxs) (X, y_class, y_reg) =
    ret (X ++ map (window_features (rows df)) idxs,
         y_class ++ map (fun i => label_of (Z.of_nat i + 4)) idxs,
         y_reg ++ map (fun i => Change (nth (i + 4) (rows df) no_wave)) idxs).
Proof.
  induction 1 as [|i idxs L F IH]; intros X y_class y_reg.
  - cbn. rewrite !app_nil_r. reflexivity.
  - cbn [map prepare_loop].
    rewrite window_features_loop by exact L. cbn [bind ret].
    rewrite !window_row by (try exact L; lia).
    cbn [bind ret row_Label snd fst].
    rewrite IH, <- !app_assoc. reflexivity.
Qed.

Lemma label_and_prepare_closed :
  label_and_prepare df =
  ret (labelled,
       (map (window_features (rows df)) (seq 0 (n - 5)),
        map (fun i => label_of (Z.of_nat i + 4)) (seq 0 (n - 5)),
        map (fun i => Change (nth (i + 4) (rows df) no_wave)) (seq 0 (n - 5)))).
Proof.
  unfold label_and_prepare. fold labels. fold labelled.
  change (df_len labelled) with (df_len df).
  rewrite py_range_0_Z.
  replace (Z.to_nat (df_len df - 5)) with (n - 5)%nat by (unfold df_len; fold n; lia).
  rewrite prepare_loop_closed.
  - reflexivity.
  - apply Forall_forall. intros i Hi. apply in_seq in Hi. lia.
Qed.

End Prepare.

(** * Triangle patterns *)

Lemma triangle_at_window (pv : list Pivot) (k : nat) (p0 p1 p2 p3 p4 : Pivot)
      (rest : list Pivot) :
  skipn k pv = p0 :: p1 :: p2 :: p3 :: p4 :: rest ->
  triangle_at pv (Z.of_nat k) = ret (emission (triangle_rule (p0, p1, p2, p3, p4))).
Proof.
  intro E. unfold triangle_at.
  assert (L : (k + 5 <= length pv)%nat).
  { assert (H : length (skipn k pv) = S (S (S (S (S (length rest)))))) by (rewrite E; reflexivity).
    rewrite length_skipn in H. lia. }
  replace (Z.of_nat k + 5) with (Z.of_nat (k + 5)) by lia.
  rewrite py_slice_nat by lia.
  replace (k + 5 - k)%nat with 5%nat by lia. rewrite E.
  cbn [firstn at_parity]. unfold triangle_kind, triangle_rule.
  cbn [all_falling all_rising].
  change (py_index [price p0; price p2; price p4] (-1)) with (@ret Q (price p4)).
  change (py_index [price p0; price p2; price p4] 0) with (@ret Q (price p0)).
  change (py_index [price p1; price p3] (-1)) with (@ret Q (price p3)).
  change (py_index [price p1; price p3] 0) with (@ret Q (price p1)).
  change (py_index [p0; p1; p2; p3; p4] 2) with (@ret Pivot p2).
  rewrite !andb_true_r. unfold bind, ret.
  destruct (Qltb (price p2) (price p0)), (Qltb (price p4) (price p2)),
    (Qltb (price p1) (price p3)), (Qltb (price p0) (price p4)),
    (Qeq_bool (price p4) (price p0)), (Qeq_bool (price p3) (price p1)); reflexivity.
Qed.

Lemma windows_short (pv : list Pivot) :
  (length pv < 5)%nat -> windows pv = [].
Proof.
  destruct pv as [|p0 [|p1 [|p2 [|p3 [|p4 t]]]]]; cbn; try reflexivity. lia.
Qed.

Lemma skipn_S_tail {A} (l : list A) (k : nat) (a : A) (t : list A) :
  skipn k l = a :: t -> skipn (S k) l = t.
Proof.
  revert l. induction k as [|k IH]; intros l E.
  - cbn in E. subst l. reflexivity.
  - destruct l as [|b l]; [discriminate|]. cbn [skipn] in E |- *.
    apply IH in E. exact E.
Qed.

Lemma triangles_loop_windows (pv : list Pivot) (m : nat) :
  forall k patterns,
    m = (length (skipn k pv) - 4)%nat ->
    triangles_loop pv (map Z.of_nat (seq k m)) patterns =
    ret (patterns ++ flat_map (fun w => emission (triangle_rule w)) (windows (skipn k pv))).
Proof.
  induction m as [|m IH]; intros k patterns M.
  - cbn [seq map triangles_loop]. rewrite windows_short by lia.
    cbn. rewrite app_nil_r. reflexivity.
  - cbn [seq map triangles_loop].
    destruct (skipn k pv) as [|p0 [|p1 [|p2 [|p3 [|p4 rest]]]]] eqn:E;
      cbn [length] in M; try lia.
    rewrite (triangle_at_window pv k p0 p1 p2 p3 p4 rest E). cbn [bind ret].
    pose proof (skipn_S_tail pv k _ _ E) as E'.
    rewrite (IH (S k)) by (rewrite E'; cbn [length]; lia).
    rewrite E'. cbn [windows flat_map]. rewrite app_assoc. reflexivity.
Qed.

Lemma detect_triangles_closed (pv : list Pivot) :
  detect_triangles pv =
  inr (flat_map (fun w => emission (triangle_rule w)) (windows pv)).
Proof.
  unfold detect_triangles. rewrite py_range_0_Z.
  rewrite (triangles_loop_windows pv _ 0 []).
  - reflexivity.
  - cbn [skipn]. lia.
Qed.

(** C7.  [detect_triangles] classifies every window of five consecutive
    pivots by the rules Contracting, Running, Barrier in that order, the
    first match winning; a window matching none emits nothing and an
    emission carries the index of the window's middle pivot.  On the highs
    and lows of the two examples the rule chain answers Contracting and
    Barrier. *)
Theorem detect_triangles_rules (pv : list Pivot) :
  detect_triangles pv =
    inr (flat_map (fun w => emission (triangle_rule w)) (windows pv)) /\
  triangle_kind [100; 90; 80]%Q [50; 60; 70]%Q =
    inr (Some "Contracting Triangle"%string) /\
  triangle_kind [100; 100; 100]%Q [50; 55; 60]%Q =
    inr (Some "Barrier Triangle"%string).
Proof.
  split; [|split; reflexivity].
  unfold detect_triangles. rewrite py_range_0_Z.
  rewrite (triangles_loop_windows pv _ 0 []).
  - reflexivity.
  - cbn [skipn]. lia.
Qed.

(** * The training set builder *)

Lemma firstn5_skipn {A} (d : A) (l : list A) (i : nat) :
  (i + 5 <= length l)%nat ->
  firstn 5 (skipn i l) =
  [nth i l d; nth (i + 1) l d; nth (i + 2) l d; nth (i + 3) l d; nth (i + 4) l d].
Proof.
  revert l. induction i as [|i IH]; intros l L.
  - destruct l as [|a [|b [|c [|e [|f l]]]]]; cbn in L; try lia. reflexivity.
  - destruct l as [|a l]; cbn in L; [lia|].
    cbn [skipn Nat.add nth]. apply IH. lia.
Qed.

(** X21.  [label_and_prepare] returns three sequences of one length,
    [len(waves) - 5] when positive and 0 otherwise, with one entry for each
    [i] in [range(len(waves) - 5)]: the 20 scalars change, duration, slope,
    volatility, direction of the waves [i], [i+1], [i+2], [i+3], in that
    order; the label of wave [i+4], which is [Wave_5] for [i = 0] and
    [Unknown] after; the change of wave [i+4]. *)
Theorem label_and_prepare_entries (df : DataFrame) :
  exists df' X y_class y_reg,
    label_and_prepare df = inr (df', (X, y_class, y_reg)) /\
    length X = (length (rows df) - 5)%nat /\
    length y_class = length X /\
    length y_reg = length X /\
    (forall i, (i < length (rows df) - 5)%nat ->
       exists w0 w1 w2 w3 w4,
         firstn 5 (skipn i (rows df)) = [w0; w1; w2; w3; w4] /\
         nth_error X i =
           Some [Change w0; Fin (inject_Z (Duration w0)); Slope w0; Volatility w0;
                 Fin (inject_Z (Direction w0));
                 Change w1; Fin (inject_Z (Duration w1)); Slope w1; Volatility w1;
                 Fin (inject_Z (Direction w1));
                 Change w2; Fin (inject_Z (Duration w2)); Slope w2; Volatility w2;
                 Fin (inject_Z (Direction w2));
                 Change w3; Fin (inject_Z (Duration w3)); Slope w3; Volatility w3;
                 Fin (inject_Z (Direction w3))] /\
         nth_error y_class i =
           Some (if Nat.eqb i 0 then "Wave_5"%string else "Unknown"%string) /\
         nth_error y_reg i = Some (Change w4)).
Proof.
  do 4 eexists. split; [apply label_and_prepare_closed|].
  rewrite !length_map, !length_seq.
  repeat split; try reflexivity.
  intros i Hi.
  do 5 eexists. split; [apply (firstn5_skipn no_wave); lia|].
  rewrite !nth_error_map, nth_error_seq.
  replace (Nat.ltb i (length (rows df) - 5)) with true
    by (symmetry; apply Nat.ltb_lt; lia).
  cbn [option_map Nat.add]. split; [|split; [|reflexivity]].
  - unfold window_features. rewrite (firstn4_skipn no_wave) by lia.
    reflexivity.
  - f_equal. destruct i as [|i]; [reflexivity|].
    unfold label_of.
    replace (Z.of_nat (S i) + 4 <? 5) with false by (symmetry; apply Z.ltb_ge; lia).
    reflexivity.
Qed.

(** C3, on a table of exactly five waves.  The five waves make one window
    of five consecutive waves, but [range(len(df) - 5)] is empty: no
    feature vector and no target is built for it. *)
Theorem label_and_prepare_five_waves (w0 w1 w2 w3 w4 : Wave) :
  exists df',
    label_and_prepare (pd_DataFrame [w0; w1; w2; w3; w4]) = inr (df', ([], [], [])).
Proof. eexists. reflexivity. Qed.

(** With six waves the first window gets its entry and the window of the
    last five waves gets none. *)
Example label_and_prepare_six_waves (w0 w1 w2 w3 w4 w5 : Wave) :
  exists df' fv,
    label_and_prepare (pd_DataFrame [w0; w1; w2; w3; w4; w5]) =
    inr (df', ([fv], ["Wave_5"%string], [Change w4])).
Proof. do 2 eexists. reflexivity. Qed.

(** C10 (as amended).  [label_and_prepare] changes the wave table it is
    given: the table leaves the call with a ['Label'] column, [Wave_1] to
    [Wave_5] then [Unknown] by position; its rows, that is the seven columns
    written by [extract_wave_features], are as before. *)
Theorem label_and_prepare_adds_Label (df : DataFrame) :
  exists df' ts,
    label_and_prepare df = inr (df', ts) /\
    rows df' = rows df /\
    Label df' = Some (map label_of (py_range 0 (df_len df))).
Proof.
  do 2 eexists. split; [apply label_and_prepare_closed|].
  split; reflexivity.
Qed.

(** C10, as stated, fails: the table does not come back unchanged. *)
Lemma label_and_prepare_changes_wave_table :
  ~ (exists ts, label_and_prepare scenario_waves = inr (scenario_waves, ts)).
Proof.
  intros (ts & E). vm_compute in E. discriminate E.
Qed.

Example scenario_waves_labelled :
  exists ts,
    label_and_prepare scenario_waves =
    inr (df_set_Label scenario_waves ["Wave_1"; "Wave_2"]%string, ts).
Proof. eexists. reflexivity. Qed.

(** * The guard of the analysis run *)

Section RunFacts.

Variable np_std : list Q -> float64.
Variables classifier regressor : Type.
Variable RandomForestClassifier_fit : list (list float64) -> list string -> classifier.
Variable RandomForestRegressor_fit : list (list float64) -> list float64 -> regressor.
Variable classifier_predict : classifier -> list (list float64) -> list string.
Variable regressor_predict : regressor -> list (list float64) -> list float64.

Let run : list Q -> Q -> result (list event) :=
  run_analysis np_std classifier regressor
               RandomForestClassifier_fit RandomForestRegressor_fit
               classifier_predict regressor_predict.

Lemma prepare_run_returns (prices : list Q) (threshold : Q) :
  prices <> [] ->
  exists pv triangles waves_df X y_class y_reg,
    prepare_run np_std prices threshold =
      inr (pv, triangles, waves_df, (X, y_class, y_reg)) /\
    zigzag_detector prices threshold = inr pv /\
    rows waves_df = rows (extract_wave_features np_std prices pv) /\
    length X = (length (rows waves_df) - 5)%nat.
Proof.
  intro NE. destruct (zigzag_detector_returns prices threshold NE) as [pv Epv].
  unfold prepare_run. rewrite Epv. cbn [bind].
  rewrite detect_triangles_closed. cbn [bind].
  rewrite label_and_prepare_closed. cbn [bind ret].
  do 6 eexists. split; [reflexivity|]. split; [reflexivity|].
  split; [reflexivity|].
  rewrite length_map, length_seq. reflexivity.
Qed.

Lemma run_analysis_few (prices : list Q) (threshold : Q)
      pv triangles waves_df X y_class y_reg :
  prepare_run np_std prices threshold =
    inr (pv, triangles, waves_df, (X, y_class, y_reg)) ->
  (length X < 2)%nat ->
  run prices threshold = inr [st_error not_enough_data].
Proof.
  intros E L. unfold run, run_analysis. rewrite E. cbn [bind].
  destruct (Z.of_nat (length X) <? 2) eqn:G; [reflexivity|].
  apply Z.ltb_ge in G. lia.
Qed.

Lemma run_analysis_enough (prices : list Q) (threshold : Q)
      pv triangles waves_df X y_class y_reg :
  prepare_run np_std prices threshold =
    inr (pv, triangles, waves_df, (X, y_class, y_reg)) ->
  (2 <= length X)%nat ->
  run prices threshold <> inr [st_error not_enough_data].
Proof.
  intros E L. unfold run, run_analysis. rewrite E. cbn [bind].
  destruct (Z.of_nat (length X) <? 2) eqn:G; [apply Z.ltb_lt in G; lia|].
  destruct (py_index X (-1)) as [e|latest]; [discriminate|]. cbn [bind].
  destruct (forecast _ _ _ _ _ _ _ _) as [e|[label_pred price_pred]];
    [discriminate|]. cbn [bind]. discriminate.
Qed.

End RunFacts.

(** C9.  On a non-empty price series the stages up to the guard always
    deliver a training set; when it holds fewer than 2 feature vectors, as
    it does whenever there are fewer than 5 waves, the run shows the message
    "Not enough data to train AI. Adjust the period or interval." and does
    nothing else: no model is fitted.  With 2 or more vectors the run does
    not take that branch. *)
Theorem run_analysis_guard
  (np_std : list Q -> float64) (classifier regressor : Type)
  (RandomForestClassifier_fit : list (list float64) -> list string -> classifier)
  (RandomForestRegressor_fit : list (list float64) -> list float64 -> regressor)
  (classifier_predict : classifier -> list (list float64) -> list string)
  (regressor_predict : regressor -> list (list float64) -> list float64)
  (prices : list Q) (threshold : Q) :
  prices <> [] ->
  exists pv triangles waves_df X y_class y_reg,
    prepare_run np_std prices threshold =
      inr (pv, triangles, waves_df, (X, y_class, y_reg)) /\
    ((length X < 2)%nat ->
     run_analysis np_std classifier regressor
       RandomForestClassifier_fit RandomForestRegressor_fit
       classifier_predict regressor_predict prices threshold =
     inr [st_error not_enough_data]) /\
    ((length (rows waves_df) < 5)%nat -> (length X < 2)%nat) /\
    ((2 <= length X)%nat ->
     run_analysis np_std classifier regressor
       RandomForestClassifier_fit RandomForestRegressor_fit
       classifier_predict regressor_predict prices threshold <>
     inr [st_error not_enough_data]).
Proof.
  intro NE.
  destruct (prepare_run_returns np_std prices threshold NE)
    as (pv & triangles & waves_df & X & y_class & y_reg & E & _ & _ & L).
  exists pv, triangles, waves_df, X, y_class, y_reg.
  split; [exact E|]. split; [|split].
  - intro F. eapply run_analysis_few; eassumption.
  - intro F. lia.
  - intro F. eapply run_analysis_enough; eassumption.
Qed.

Lemma run_analysis_guard_witness :
  exists pv triangles waves_df X y_class y_reg,
    prepare_run (fun _ => Fin 0) [10; 11; 12; 8; 9; 15]%Q 0.2%Q =
      inr (pv, triangles, waves_df, (X, y_class, y_reg)) /\
    ((length X < 2)%nat ->
     run_analysis (fun _ => Fin 0) unit unit (fun _ _ => tt) (fun _ _ => tt)
       (fun _ _ => []) (fun _ _ => []) [10; 11; 12; 8; 9; 15]%Q 0.2%Q =
     inr [st_error not_enough_data]) /\
    ((length (rows waves_df) < 5)%nat -> (length X < 2)%nat) /\
    ((2 <= length X)%nat ->
     run_analysis (fun _ => Fin 0) unit unit (fun _ _ => tt) (fun _ _ => tt)
       (fun _ _ => []) (fun _ _ => []) [10; 11; 12; 8; 9; 15]%Q 0.2%Q <>
     inr [st_error not_enough_data]).
Proof.
  apply run_analysis_guard. discriminate.
Defined.

Example run_analysis_scenario :
  run_analysis (fun _ => Fin 0) unit unit (fun _ _ => tt) (fun _ _ => tt)
    (fun _ _ => []) (fun _ _ => []) [10; 11; 12; 8; 9; 15]%Q 0.2%Q =
  inr [st_error not_enough_data].
Proof. reflexivity. Qed.

(** * Further properties of pivot detection *)

(** The tests of the loop, over a positive anchor, as inequalities on the
    price move. *)
Lemma np_div_pos (x a : Q) : (0 < a)%Q -> np_div x a = Fin (x / a).
Proof.
  intro A. unfold np_div. destruct (Qeq_bool a 0) eqn:E; [|reflexivity].
  apply Qeq_bool_iff in E. rewrite E in A. exfalso. apply (Qlt_irrefl 0 A).
Qed.

Lemma Qdiv_le_iff (x a t : Q) : (0 < a)%Q -> (x / a <= t)%Q <-> (x <= t * a)%Q.
Proof.
  intro A. split; intro H.
  - assert (N : ~ (a == 0)%Q) by (intro Z; rewrite Z in A; apply (Qlt_irrefl 0 A)).
    assert (M : (x / a * a <= t * a)%Q)
      by (apply Qmult_le_compat_r; [exact H | apply Qlt_le_weak; exact A]).
    rewrite (Qmult_comm (x / a)), Qmult_div_r in M by exact N. exact M.
  - apply Qle_shift_div_r; assumption.
Qed.

Lemma change_gt0_iff (p a : Q) :
  (0 < a)%Q -> np_gt (np_div (p - a) a) 0 = true <-> (a < p)%Q.
Proof.
  intro A. rewrite np_div_pos by exact A. cbn [np_gt]. rewrite Qltb_lt.
  split; intro H.
  - apply Qnot_le_lt. intro L.
    assert (D : ((p - a) / a <= 0)%Q) by (apply Qdiv_le_iff; [exact A | lra]).
    apply (Qlt_not_le _ _ H D).
  - apply Qnot_le_lt. intro L.
    apply Qdiv_le_iff in L; [lra | exact A].
Qed.

(** X1.  [zigzag_detector] raises exactly on the empty series: the error
    is [IndexError] (from [prices[0]]), and no threshold and no price, zero
    included, makes it raise on a series that has a price. *)
Theorem zigzag_detector_raises_iff_empty (prices : list Q) (threshold : Q) :
  (prices = [] /\ zigzag_detector prices threshold = inl IndexError) \/
  (prices <> [] /\ exists pv, zigzag_detector prices threshold = inr pv).
Proof.
  destruct prices as [|p0 ps].
  - left. split; reflexivity.
  - right. split; [discriminate|]. apply zigzag_detector_returns. discriminate.
Qed.

(** X2.  A series of one price gives the single pivot [(0, price)], and
    the wave table built from it has no row. *)
Theorem zigzag_detector_single
  (np_std : list Q -> float64) (p threshold : Q) :
  zigzag_detector [p] threshold = inr [(0, p)] /\
  forall pv, zigzag_detector [p] threshold = inr pv ->
             rows (extract_wave_features np_std [p] pv) = [].
Proof.
  split; [reflexivity|]. intros pv E.
  change (zigzag_detector [p] threshold) with (@inr exn _ [(0, p)]) in E.
  injection E as <-. reflexivity.
Qed.

Lemma nth_error_last {A} (l : list A) (d : A) :
  l <> [] -> nth_error l (length l - 1) = Some (List.last l d).
Proof.
  intro NE. destruct (exists_last NE) as [l' [a ->]].
  rewrite last_last, length_app. cbn [length].
  replace (length l' + 1 - 1)%nat with (length l') by lia.
  rewrite nth_error_app2 by lia. rewrite Nat.sub_diag. reflexivity.
Qed.

Section OnSeries.

Variable prices : list Q.
Variable threshold : Q.

Lemma on_series_step (pre ps : list Q) (p : Q) (s : zz_state) :
  prices = pre ++ p :: ps ->
  Forall (on_series prices) (chain s) ->
  Forall (on_series prices) (chain (zz_step threshold s (Z.of_nat (length pre)) p)).
Proof.
  intros E F.
  assert (O : on_series prices (Z.of_nat (length pre), p)).
  { split; cbn [index price fst snd]; [lia|].
    rewrite Nat2Z.id, E, nth_error_app2 by lia.
    rewrite Nat.sub_diag. reflexivity. }
  unfold zz_step.
  repeat match goal with |- context [if ?c then _ else _] => destruct c end;
    unfold chain in *; cbn [pivots last last_index];
    try exact F;
    (apply Forall_app; split; [exact F | constructor; [exact O | constructor]]).
Qed.

Lemma on_series_loop (ps : list Q) :
  forall pre s,
    prices = pre ++ ps ->
    Forall (on_series prices) (chain s) ->
    Forall (on_series prices) (chain (zz_loop threshold s (Z.of_nat (length pre)) ps)).
Proof.
  induction ps as [|p ps IH]; intros pre s E F; cbn [zz_loop]; [exact F|].
  replace (Z.of_nat (length pre) + 1) with (Z.of_nat (length (pre ++ [p])))
    by (rewrite length_app; cbn [length]; lia).
  apply IH.
  - rewrite <- app_assoc. exact E.
  - apply (on_series_step pre ps); assumption.
Qed.

End OnSeries.

Lemma zigzag_detector_on_series (prices : list Q) (threshold : Q) (pv : list Pivot) :
  zigzag_detector prices threshold = inr pv -> Forall (on_series prices) pv.
Proof.
  destruct prices as [|p0 ps]; [discriminate|].
  rewrite zigzag_detector_cons. unfold ret. intro E.
  set (r := _ ++ _) in E. assert (E' : r = pv) by congruence.
  subst pv r. clear E.
  assert (F : Forall (on_series (p0 :: ps)) (chain (mk_zz [] p0 None 0))).
  { constructor; [|constructor]. split; [cbn; lia | reflexivity]. }
  apply (on_series_loop (p0 :: ps) threshold ps [p0]) in F; [|reflexivity].
  change (Z.of_nat (length [p0])) with 1 in F.
  unfold chain in F. apply Forall_app in F. destruct F as [F _].
  apply Forall_app. split; [exact F|]. constructor; [|constructor]. split.
  - unfold index. cbv beta iota delta [fst]. cbn [length]. lia.
  - unfold index, price. cbv beta iota delta [fst snd].
    replace (Z.to_nat (Z.of_nat (length (p0 :: ps)) - 1))
      with (length (p0 :: ps) - 1)%nat by lia.
    apply nth_error_last. discriminate.
Qed.

(** X3.  Every pivot returned by [zigzag_detector] is a point of the input:
    its index is a valid position of the series and its price is the price
    at that position. *)
Theorem zigzag_pivots_on_series (prices : list Q) (threshold : Q) :
  prices <> [] ->
  exists pv,
    zigzag_detector prices threshold = inr pv /\
    Forall (fun p => 0 <= index p < Z.of_nat (length prices) /\
                     nth_error prices (Z.to_nat (index p)) = Some (price p)) pv.
Proof.
  intro NE. destruct (zigzag_detector_returns prices threshold NE) as [pv E].
  exists pv. split; [exact E|].
  apply zigzag_detector_on_series in E.
  eapply Forall_impl; [|exact E]. intros p [L H]. split; [|exact H].
  split; [exact L|].
  assert (Z.to_nat (index p) < length prices)%nat
    by (apply nth_error_Some; congruence).
  lia.
Qed.

Lemma zigzag_pivots_on_series_witness :
  exists pv,
    zigzag_detector [10; 11; 12; 8; 9; 15]%Q 0.2%Q = inr pv /\
    Forall (fun p => 0 <= index p < Z.of_nat (length [10; 11; 12; 8; 9; 15]%Q) /\
                     nth_error [10; 11; 12; 8; 9; 15]%Q (Z.to_nat (index p)) =
                     Some (price p)) pv.
Proof. apply zigzag_pivots_on_series. discriminate. Defined.

Lemma sorted_bounded_length (l : list Z) :
  forall lo hi,
    StronglySorted Z.lt l -> Forall (fun x => lo <= x < hi) l ->
    Z.of_nat (length l) <= Z.max 0 (hi - lo).
Proof.
  induction l as [|a l IH]; intros lo hi S B; cbn [length]; [lia|].
  inversion S as [|? ? S' F]; subst. inversion B as [|? ? Ba B']; subst.
  specialize (IH (a + 1) hi S').
  assert (B2 : Forall (fun x => a + 1 <= x < hi) l).
  { apply Forall_forall. intros x Hx.
    rewrite Forall_forall in F, B'. specialize (F x Hx). specialize (B' x Hx). lia. }
  specialize (IH B2). lia.
Qed.

Lemma zigzag_detector_count (prices : list Q) (threshold : Q) :
  prices <> [] ->
  exists pv,
    zigzag_detector prices threshold = inr pv /\
    (1 <= length pv <= length prices)%nat.
Proof.
  intro NE.
  destruct (zigzag_detector_indices prices threshold NE) as (pv & E & S & L & _).
  exists pv. split; [exact E|]. split.
  - destruct prices as [|p0 ps]; [congruence|].
    rewrite zigzag_detector_cons in E. unfold ret in E.
    assert (E' : pivots (zz_loop threshold (mk_zz [] p0 None 0) 1 ps)
                 ++ [(Z.of_nat (length (p0 :: ps)) - 1, List.last (p0 :: ps) p0)] = pv)
      by congruence.
    rewrite <- E', length_app. cbn [length]. lia.
  - pose proof (zigzag_detector_on_series prices threshold pv E) as O.
    assert (B : Forall (fun x => 0 <= x < Z.of_nat (length prices)) (map index pv)).
    { apply Forall_map. eapply Forall_impl; [|exact O]. intros p [L0 H].
      assert (Z.to_nat (index p) < length prices)%nat
        by (apply nth_error_Some; congruence).
      lia. }
    pose proof (sorted_bounded_length _ _ _ S B) as K.
    rewrite length_map in K. lia.
Qed.

(** X4.  [zigzag_detector] returns at least one pivot and never more pivots
    than there are prices. *)
Theorem zigzag_pivot_count (prices : list Q) (threshold : Q) :
  prices <> [] ->
  exists pv,
    zigzag_detector prices threshold = inr pv /\
    (1 <= length pv <= length prices)%nat.
Proof. apply zigzag_detector_count. Qed.

Lemma zigzag_pivot_count_witness :
  exists pv,
    zigzag_detector [10; 11; 12; 8; 9; 15]%Q 0.2%Q = inr pv /\
    (1 <= length pv <= length [10; 11; 12; 8; 9; 15]%Q)%nat.
Proof. apply zigzag_pivot_count. discriminate. Defined.

(** ** Reversals, whatever the arithmetic *)

Lemma pairs_snoc {A} (l : list A) (a b : A) :
  pairs (l ++ [a; b]) = pairs (l ++ [a]) ++ [(a, b)].
Proof.
  induction l as [|x l IH]; [reflexivity|].
  destruct l as [|y l]; [reflexivity|].
  cbn [app pairs] in *. rewrite IH. reflexivity.
Qed.

Lemma pairs_prefix {A} (l : list A) (a : A) :
  exists t, pairs (l ++ [a]) = pairs l ++ t.
Proof.
  induction l as [|x l [t IH]].
  - exists []. reflexivity.
  - destruct l as [|y l].
    + eexists. cbn. reflexivity.
    + exists t. cbn [app pairs] in *. rewrite IH. reflexivity.
Qed.

Lemma alt_bools_snoc (ks : list bool) (k k' : bool) :
  alt_bools (ks ++ [k]) -> k' = negb k -> alt_bools ((ks ++ [k]) ++ [k']).
Proof.
  intros A E. induction ks as [|x ks IH].
  - cbn. auto.
  - destruct ks as [|y ks]; cbn [app alt_bools] in *.
    + destruct A as [A1 _]. auto.
    + destruct A as [A1 A2]. split; [exact A1|]. apply IH. exact A2.
Qed.

Lemma alt_bools_prefix (l1 l2 : list bool) :
  alt_bools (l1 ++ l2) -> alt_bools l1.
Proof.
  induction l1 as [|x l1 IH]; intro A; [exact I|].
  destruct l1 as [|y l1]; [exact I|].
  cbn [app alt_bools] in *. destruct A as [A1 A2]. split; [exact A1|].
  apply IH. exact A2.
Qed.

Section AnyArithmeticFacts.

Variables price_t change_t : Type.
Variable frac_change : price_t -> price_t -> change_t.
Variable is_rise : change_t -> bool.
Variable reverses_down : change_t -> bool.
Variable reverses_up : change_t -> bool.

Let state := zz_state_with price_t.
Let step := zz_step_with price_t change_t frac_change is_rise reverses_down reverses_up.
Let loop := zz_loop_with price_t change_t frac_change is_rise reverses_down reverses_up.
Let detector :=
  zigzag_detector_with price_t change_t frac_change is_rise reverses_down reverses_up.
Let passed := passes price_t change_t frac_change reverses_down reverses_up.

Lemma zigzag_detector_with_cons (p0 : price_t) (ps : list price_t) :
  detector (p0 :: ps) =
  ret (pivots_with price_t (loop (mk_zz_with price_t [] p0 None 0) 1 ps)
       ++ [(Z.of_nat (length (p0 :: ps)) - 1, List.last (p0 :: ps) p0)]).
Proof.
  unfold detector, zigzag_detector_with.
  rewrite py_index_head. cbn [bind ret].
  rewrite py_slice_tail.
  rewrite (py_index_last (p0 :: ps) p0) by discriminate.
  reflexivity.
Qed.

(** The moves between the anchors passed their tests, rises and falls in
    turn, and the trend is the kind of the last move. *)
Definition turns_inv (s : state) : Prop :=
  exists kinds,
    Forall2 passed kinds (pairs (chain_with price_t s)) /\
    alt_bools kinds /\
    match rev kinds with
    | [] => True
    | k :: _ => trend_up_with price_t s = Some k
    end.

Lemma turns_inv_emit (s : state) (i : Z) (p : price_t) (trend : bool) :
  turns_inv s ->
  match trend_up_with price_t s with None => True | Some b => b = trend end ->
  passed (negb trend) ((last_index_with price_t s, last_with price_t s), (i, p)) ->
  turns_inv (mk_zz_with price_t
               (pivots_with price_t s ++ [(last_index_with price_t s, last_with price_t s)])
               p (Some (negb trend)) i).
Proof.
  intros (kinds & F & A & T) Tr P. exists (kinds ++ [negb trend]).
  unfold chain_with in *. cbn [pivots_with last_with last_index_with].
  rewrite <- app_assoc.
  change ([(last_index_with price_t s, last_with price_t s)] ++ [(i, p)])
    with [(last_index_with price_t s, last_with price_t s); (i, p)].
  rewrite pairs_snoc. split; [|split].
  - apply Forall2_app; [exact F | constructor; [exact P | constructor]].
  - destruct (rev kinds) as [|k r] eqn:E.
    + apply (f_equal (@rev bool)) in E. rewrite rev_involutive in E. subst kinds.
      exact I.
    + apply (f_equal (@rev bool)) in E. rewrite rev_involutive in E. cbn [rev] in E.
      subst kinds. apply alt_bools_snoc; [exact A|].
      rewrite T in Tr. subst k. reflexivity.
  - rewrite rev_app_distr. reflexivity.
Qed.

Lemma turns_inv_step (s : state) (i : Z) (p : price_t) :
  turns_inv s -> turns_inv (step s i p).
Proof.
  intro I. unfold step, zz_step_with.
  set (change := frac_change p (last_with price_t s)).
  set (trend := match trend_up_with price_t s with None => is_rise change | Some b => b end).
  assert (Tr : match trend_up_with price_t s with None => True | Some b => b = trend end).
  { subst trend. destruct (trend_up_with price_t s); auto. }
  assert (Keep : turns_inv (mk_zz_with price_t (pivots_with price_t s) (last_with price_t s)
                              (Some trend) (last_index_with price_t s))).
  { destruct I as (kinds & F & A & T). exists kinds. unfold chain_with in *.
    cbn [pivots_with last_with last_index_with]. split; [exact F|]. split; [exact A|].
    destruct (rev kinds) as [|k r]; [exact Logic.I|]. rewrite T in Tr. subst k. reflexivity. }
  destruct trend eqn:Et; cbn [andb negb].
  - destruct (reverses_down change) eqn:E; [|exact Keep].
    apply (turns_inv_emit s i p true I Tr). exact E.
  - destruct (reverses_up change) eqn:E; [|exact Keep].
    apply (turns_inv_emit s i p false I Tr). exact E.
Qed.

Lemma turns_inv_loop (ps : list price_t) :
  forall i s, turns_inv s -> turns_inv (loop s i ps).
Proof.
  induction ps as [|p ps IH]; intros i s I; cbn; [exact I|].
  apply IH, turns_inv_step, I.
Qed.

(** X5.  Between consecutive pivots, the terminal pivot left aside, every
    move passed the reversal test of the loop as the loop computed it,
    [(p - anchor) / anchor <= -threshold] for a fall and [>= threshold] for
    a rise, and falls and rises come in turn.  The division and the
    comparisons are parameters: this holds of float64 with its rounding. *)
Theorem zigzag_reversals_in_turn (prices : list price_t) :
  prices <> [] ->
  exists pv kinds,
    detector prices = inr pv /\
    Forall2 passed kinds (pairs (removelast pv)) /\
    alt_bools kinds.
Proof.
  destruct prices as [|p0 ps]; [congruence|]. intros _.
  rewrite zigzag_detector_with_cons.
  assert (I : turns_inv (mk_zz_with price_t [] p0 None 0)).
  { exists []. repeat split. constructor. }
  apply (turns_inv_loop ps 1) in I.
  destruct I as (kinds & F & A & _). unfold chain_with in F.
  destruct (pairs_prefix (pivots_with price_t (loop (mk_zz_with price_t [] p0 None 0) 1 ps))
              (last_index_with price_t (loop (mk_zz_with price_t [] p0 None 0) 1 ps),
               last_with price_t (loop (mk_zz_with price_t [] p0 None 0) 1 ps))) as [t E].
  rewrite E in F. apply Forall2_app_inv_r in F.
  destruct F as (k1 & k2 & F1 & _ & Ek). subst kinds.
  eexists. exists k1. split; [reflexivity|].
  rewrite removelast_last. split; [exact F1|].
  eapply alt_bools_prefix. exact A.
Qed.

(** No pivot emitted yet, the anchor still the first price [p0], the trend
    settled as [b]. *)
Definition steady (p0 : price_t) (b : bool) (s : state) : Prop :=
  pivots_with price_t s = [] /\ last_with price_t s = p0 /\
  trend_up_with price_t s = Some b.

Lemma steady_up_step (p0 : price_t) (s : state) (i : Z) (p : price_t) :
  reverses_down (frac_change p p0) = false ->
  pivots_with price_t s = [] -> last_with price_t s = p0 ->
  (trend_up_with price_t s = Some true \/
   (trend_up_with price_t s = None /\ is_rise (frac_change p p0) = true)) ->
  steady p0 true (step s i p).
Proof.
  intros H Ep El T. unfold step, zz_step_with. rewrite El.
  assert (Tr : match trend_up_with price_t s with
               | None => is_rise (frac_change p p0)
               | Some b => b
               end = true).
  { destruct T as [-> | [-> L]]; [reflexivity | exact L]. }
  rewrite Tr, H. cbn [andb negb]. repeat split; assumption.
Qed.

Lemma steady_down_step (p0 : price_t) (s : state) (i : Z) (p : price_t) :
  reverses_up (frac_change p p0) = false ->
  pivots_with price_t s = [] -> last_with price_t s = p0 ->
  (trend_up_with price_t s = Some false \/
   (trend_up_with price_t s = None /\ is_rise (frac_change p p0) = false)) ->
  steady p0 false (step s i p).
Proof.
  intros H Ep El T. unfold step, zz_step_with. rewrite El.
  assert (Tr : match trend_up_with price_t s with
               | None => is_rise (frac_change p p0)
               | Some b => b
               end = false).
  { destruct T as [-> | [-> L]]; [reflexivity | exact L]. }
  rewrite Tr, H. cbn [andb negb]. repeat split; assumption.
Qed.

Lemma steady_up_loop (p0 : price_t) (ps : list price_t) :
  Forall (fun p => reverses_down (frac_change p p0) = false) ps ->
  forall i s, steady p0 true s -> steady p0 true (loop s i ps).
Proof.
  induction 1 as [|p ps H F IH]; intros i s (Ep & El & Et);
    cbn; [repeat split; assumption|].
  apply IH. apply steady_up_step; auto.
Qed.

Lemma steady_down_loop (p0 : price_t) (ps : list price_t) :
  Forall (fun p => reverses_up (frac_change p p0) = false) ps ->
  forall i s, steady p0 false s -> steady p0 false (loop s i ps).
Proof.
  induction 1 as [|p ps H F IH]; intros i s (Ep & El & Et);
    cbn; [repeat split; assumption|].
  apply IH. apply steady_down_step; auto.
Qed.

(** X6.  The anchor stays at the first price [p0] until a reversal, and the
    first change alone sets the trend.  If the first change tests [> 0] and
    no price [p] passes [(p - p0) / p0 <= -threshold], the terminal pivot
    is the only one, however high the series climbs; the same if the first
    change does not test [> 0] (a fall, or no move) and no price passes
    [(p - p0) / p0 >= threshold].  The tests are those the loop computes,
    for any arithmetic. *)
Theorem zigzag_no_reversal (p0 p1 : price_t) (rest : list price_t) :
  (is_rise (frac_change p1 p0) = true /\
   Forall (fun p => reverses_down (frac_change p p0) = false) (p1 :: rest)) \/
  (is_rise (frac_change p1 p0) = false /\
   Forall (fun p => reverses_up (frac_change p p0) = false) (p1 :: rest)) ->
  detector (p0 :: p1 :: rest) =
  inr [(Z.of_nat (length (p0 :: p1 :: rest)) - 1, List.last (p0 :: p1 :: rest) p0)].
Proof.
  intro H. rewrite zigzag_detector_with_cons. unfold ret. f_equal.
  change (pivots_with price_t (loop (mk_zz_with price_t [] p0 None 0) 1 (p1 :: rest)) ++
          [(Z.of_nat (length (p0 :: p1 :: rest)) - 1, List.last (p0 :: p1 :: rest) p0)] =
          [] ++ [(Z.of_nat (length (p0 :: p1 :: rest)) - 1, List.last (p0 :: p1 :: rest) p0)]).
  f_equal. unfold loop. cbn [zz_loop_with].
  destruct H as [[L F] | [L F]]; inversion F as [|? ? H1 Fr]; subst.
  - eapply (steady_up_loop p0 rest Fr).
    apply steady_up_step; auto.
  - eapply (steady_down_loop p0 rest Fr).
    apply steady_down_step; auto.
Qed.

End AnyArithmeticFacts.

(** The exact model of [zigzag_detector] is this loop at the exact
    operations. *)
Lemma zigzag_detector_is_exact_instance (prices : list Q) (threshold : Q) :
  zigzag_detector prices threshold = zigzag_detector_exact threshold prices.
Proof.
  destruct prices as [|p0 ps]; [reflexivity|].
  unfold zigzag_detector_exact.
  rewrite zigzag_detector_cons, zigzag_detector_with_cons. do 3 f_equal.
  assert (G : forall ps s sw i,
             pivots s = pivots_with Q sw -> last s = last_with Q sw ->
             trend_up s = trend_up_with Q sw -> last_index s = last_index_with Q sw ->
             pivots (zz_loop threshold s i ps) =
             pivots_with Q
               (zz_loop_with Q float64 (fun p anchor => np_div (p - anchor) anchor)
                  (fun c => np_gt c 0) (fun c => np_le c (- threshold))
                  (fun c => np_ge c threshold) sw i ps)).
  { clear. induction ps as [|p ps IH]; intros s sw i E1 E2 E3 E4; [exact E1|].
    cbn [zz_loop zz_loop_with]. apply IH;
      unfold zz_step, zz_step_with; rewrite <- E1, <- E2, <- E3, <- E4;
      repeat match goal with |- context [if ?c then _ else _] => destruct c end;
      reflexivity. }
  apply G; reflexivity.
Qed.

Lemma zigzag_reversals_in_turn_witness :
  exists pv kinds,
    zigzag_detector_exact 0.2 [100; 101; 79; 96; 76; 92; 75]%Q = inr pv /\
    Forall2 (passes Q float64 (fun p anchor => np_div (p - anchor) anchor)
                    (fun c => np_le c (- 0.2)) (fun c => np_ge c 0.2))
            kinds (pairs (removelast pv)) /\
    alt_bools kinds.
Proof.
  apply (zigzag_reversals_in_turn Q float64). discriminate.
Defined.

Lemma zigzag_no_reversal_witness :
  zigzag_detector_exact 0.2 [10; 11; 30; 9]%Q =
  inr [(Z.of_nat (length [10; 11; 30; 9]%Q) - 1, List.last [10; 11; 30; 9]%Q 10%Q)].
Proof.
  apply (zigzag_no_reversal Q float64).
  left. split; [reflexivity | repeat constructor].
Defined.

(** * Further properties of wave extraction *)

(** X7.  The waves follow the pivots: the start indices of the waves are
    the indices of all pivots but the last, the end indices those of all
    pivots but the first, so each wave starts where the one before ends. *)
Theorem extract_wave_features_chain
  (np_std : list Q -> float64) (prices : list Q) (pv : list Pivot) :
  map Start (rows (extract_wave_features np_std prices pv)) = map index (removelast pv) /\
  map End_ (rows (extract_wave_features np_std prices pv)) = map index (tl pv).
Proof.
  unfold extract_wave_features. cbn [rows pd_DataFrame].
  induction pv as [|a pv [IH1 IH2]]; [split; reflexivity|].
  destruct pv as [|b pv]; [split; reflexivity|].
  change (wave_rows np_std prices (a :: b :: pv))
    with (wave_of np_std prices a b :: wave_rows np_std prices (b :: pv)).
  change (removelast (a :: b :: pv)) with (a :: removelast (b :: pv)).
  cbn [map tl]. rewrite IH1. cbn [tl] in IH2. rewrite IH2.
  destruct a, b. split; reflexivity.
Qed.

(** X8.  The direction of a wave is 0 or 1.  Over a positive start price it
    is 1 exactly when the end price is higher; over a negative start price
    the fractional change has the opposite sign and the direction is 1
    exactly when the end price is lower. *)
Theorem wave_direction
  (np_std : list Q -> float64) (prices : list Q) (a b : Pivot) :
  (Direction (wave_of np_std prices a b) = 0 \/
   Direction (wave_of np_std prices a b) = 1) /\
  ((0 < price a)%Q ->
   (Direction (wave_of np_std prices a b) = 1 <-> (price a < price b)%Q)) /\
  ((price a < 0)%Q ->
   (Direction (wave_of np_std prices a b) = 1 <-> (price b < price a)%Q)).
Proof.
  destruct a as [i1 p1], b as [i2 p2]. cbn [wave_of Direction price snd].
  split; [destruct (np_gt (np_div (p2 - p1) p1) 0); auto|]. split; intro A.
  - destruct (np_gt (np_div (p2 - p1) p1) 0) eqn:G.
    + apply change_gt0_iff in G; [|exact A]. split; auto.
    + split; [discriminate|]. intro L. apply change_gt0_iff in L; [|exact A].
      congruence.
  - assert (N : Qeq_bool p1 0 = false).
    { destruct (Qeq_bool p1 0) eqn:E; [|reflexivity].
      apply Qeq_bool_iff in E. rewrite E in A. exfalso. apply (Qlt_irrefl 0 A). }
    unfold np_div. rewrite N. cbn [np_gt].
    assert (Q0 : (0 < - p1)%Q) by lra.
    assert (D : ((p2 - p1) / p1 == (p1 - p2) / - p1)%Q).
    { field. intro Z. rewrite Z in A. apply (Qlt_irrefl 0 A). }
    destruct (Qltb 0 ((p2 - p1) / p1)) eqn:G.
    + split; [intros _|reflexivity]. apply Qltb_lt in G. rewrite D in G.
      apply Qnot_le_lt. intro L.
      assert (K : ((p1 - p2) / - p1 <= 0)%Q) by (apply Qdiv_le_iff; [exact Q0 | lra]).
      apply (Qlt_not_le _ _ G K).
    + split; [discriminate|]. intro L. exfalso.
      assert (K : (0 < (p2 - p1) / p1)%Q).
      { rewrite D. apply Qnot_le_lt. intro M.
        apply Qdiv_le_iff in M; [lra | exact Q0]. }
      apply Qltb_lt in K. congruence.
Qed.

Lemma wave_direction_witness :
  Direction (wave_of (fun _ => Fin 0) [8; 10]%Q (0, 8%Q) (1, 10%Q)) = 1 <->
  (price (0%Z, 8) < price (1%Z, 10))%Q.
Proof.
  apply (proj1 (proj2 (wave_direction (fun _ => Fin 0) [8; 10]%Q (0, 8%Q) (1, 10%Q)))).
  reflexivity.
Defined.

Lemma py_slice_length {A} (l : list A) (a b : Z) :
  0 <= a <= b -> b <= Z.of_nat (length l) ->
  Z.of_nat (length (py_slice l a b)) = b - a.
Proof.
  intros H L.
  replace a with (Z.of_nat (Z.to_nat a)) by lia.
  replace b with (Z.of_nat (Z.to_nat b)) by lia.
  rewrite py_slice_nat by lia.
  rewrite length_firstn, length_skipn. lia.
Qed.

Lemma wave_rows_regular (np_std : list Q -> float64) (prices : list Q) (pv : list Pivot) :
  StronglySorted Z.lt (map index pv) ->
  Forall (fun p => 0 <= index p < Z.of_nat (length prices)) pv ->
  Forall (regular_wave np_std prices) (wave_rows np_std prices pv).
Proof.
  induction pv as [|a pv IH]; intros S B; [constructor|].
  destruct pv as [|b pv]; [constructor|].
  change (wave_rows np_std prices (a :: b :: pv))
    with (wave_of np_std prices a b :: wave_rows np_std prices (b :: pv)).
  inversion S as [|? ? S' F]; subst. inversion B as [|? ? Ba B']; subst.
  constructor; [|apply IH; assumption].
  inversion F as [|? ? Lab _]; subst. inversion B' as [|? ? Bb _]; subst.
  destruct a as [i1 p1], b as [i2 p2]. cbn [index fst] in *.
  unfold regular_wave. cbn [wave_of Duration Slope Change Volatility Start End_].
  assert (D : 0 < i2 - i1) by lia.
  replace (i2 - i1 =? 0) with false by (symmetry; apply Z.eqb_neq; lia).
  replace (0 <? i2 - i1) with true by (symmetry; apply Z.ltb_lt; lia).
  cbn [negb]. repeat split; try reflexivity; try lia.
  apply py_slice_length; lia.
Qed.

(** X9.  On the pivots of [zigzag_detector], every wave has a positive
    duration, so its slope is the change divided by the duration (the zero
    fallback is never taken) and its volatility is [np.std] of exactly
    [Duration] prices, from the start pivot up to the end pivot excluded;
    when there is a wave at all, the durations add up to [len(prices) - 1]. *)
Theorem waves_of_zigzag
  (np_std : list Q -> float64) (prices : list Q) (threshold : Q) :
  prices <> [] ->
  exists pv,
    zigzag_detector prices threshold = inr pv /\
    Forall (regular_wave np_std prices)
           (rows (extract_wave_features np_std prices pv)) /\
    (rows (extract_wave_features np_std prices pv) <> [] ->
     sum_durations (rows (extract_wave_features np_std prices pv)) =
     Z.of_nat (length prices) - 1).
Proof.
  intro NE.
  destruct (zigzag_detector_indices prices threshold NE) as (pv & E & S & L & H).
  exists pv. split; [exact E|].
  pose proof (zigzag_detector_on_series prices threshold pv E) as O.
  unfold extract_wave_features. cbn [rows pd_DataFrame]. split.
  - apply wave_rows_regular; [exact S|].
    eapply Forall_impl; [|exact O]. intros p [L0 Hp]. split; [exact L0|].
    assert (Z.to_nat (index p) < length prices)%nat
      by (apply nth_error_Some; congruence).
    lia.
  - intro W. destruct pv as [|a pv]; [exfalso; apply W; reflexivity|].
    destruct pv as [|b pv]; [exfalso; apply W; reflexivity|].
    rewrite wave_rows_durations.
    rewrite (last_indep (a :: b :: pv) (0, 0%Q) a) in L by discriminate.
    destruct H as [H|H]; [discriminate H|]. cbn [hd] in H. lia.
Qed.

Lemma waves_of_zigzag_witness :
  exists pv,
    zigzag_detector [10; 11; 12; 8; 9; 15]%Q 0.2%Q = inr pv /\
    Forall (regular_wave (fun _ => Fin 0) [10; 11; 12; 8; 9; 15]%Q)
           (rows (extract_wave_features (fun _ => Fin 0) [10; 11; 12; 8; 9; 15]%Q pv)) /\
    (rows (extract_wave_features (fun _ => Fin 0) [10; 11; 12; 8; 9; 15]%Q pv) <> [] ->
     sum_durations (rows (extract_wave_features (fun _ => Fin 0) [10; 11; 12; 8; 9; 15]%Q pv)) =
     Z.of_nat (length [10; 11; 12; 8; 9; 15]%Q) - 1).
Proof. apply waves_of_zigzag. discriminate. Defined.

Lemma wave_rows_no_nan (np_std : list Q -> float64) (prices : list Q) (pv : list Pivot) :
  Forall (fun p => ~ (price p == 0)%Q) pv ->
  Forall (fun w => Change w <> NaN /\ Slope w <> NaN) (wave_rows np_std prices pv).
Proof.
  induction pv as [|a pv IH]; intro F; [constructor|].
  destruct pv as [|b pv]; [constructor|].
  change (wave_rows np_std prices (a :: b :: pv))
    with (wave_of np_std prices a b :: wave_rows np_std prices (b :: pv)).
  inversion F as [|? ? Na F']; subst.
  constructor; [|apply IH; exact F'].
  destruct a as [i1 p1], b as [i2 p2]. cbn [price snd] in Na.
  cbn [wave_of Change Slope]. unfold np_div.
  destruct (Qeq_bool p1 0) eqn:E; [apply Qeq_bool_iff in E; contradiction|].
  split; [discriminate|].
  destruct (negb (i2 - i1 =? 0)); discriminate.
Qed.

(** X10.  A zero price is the only source of [nan]: on a series without a
    zero price no wave cut at the pivots of [zigzag_detector] has a [nan]
    change or a [nan] slope. *)
Theorem waves_of_zigzag_no_nan
  (np_std : list Q -> float64) (prices : list Q) (threshold : Q) :
  prices <> [] -> Forall (fun p => ~ (p == 0)%Q) prices ->
  exists pv,
    zigzag_detector prices threshold = inr pv /\
    Forall (fun w => Change w <> NaN /\ Slope w <> NaN)
           (rows (extract_wave_features np_std prices pv)).
Proof.
  intros NE NZ. destruct (zigzag_detector_returns prices threshold NE) as [pv E].
  exists pv. split; [exact E|].
  apply wave_rows_no_nan.
  pose proof (zigzag_detector_on_series prices threshold pv E) as O.
  eapply Forall_impl; [|exact O]. intros p [_ Hp].
  apply nth_error_In in Hp. rewrite Forall_forall in NZ. apply NZ. exact Hp.
Qed.

Lemma waves_of_zigzag_no_nan_witness :
  exists pv,
    zigzag_detector [10; 11; 12; 8; 9; 15]%Q 0.2%Q = inr pv /\
    Forall (fun w => Change w <> NaN /\ Slope w <> NaN)
           (rows (extract_wave_features (fun _ => Fin 0) [10; 11; 12; 8; 9; 15]%Q pv)).
Proof.
  apply waves_of_zigzag_no_nan; [discriminate|].
  repeat constructor; discriminate.
Defined.

(** * Further properties of the training set builder *)

Lemma labels_after_fifth (m : nat) :
  forall k, (1 <= k)%nat ->
    map (fun i => label_of (Z.of_nat i + 4)) (seq k m) = repeat "Unknown"%string m.
Proof.
  induction m as [|m IH]; intros k K; [reflexivity|].
  cbn [seq map repeat]. rewrite IH by lia. f_equal.
  unfold label_of.
  replace (Z.of_nat k + 4 <? 5) with false by (symmetry; apply Z.ltb_ge; lia).
  reflexivity.
Qed.

(** X11.  The class targets are [Wave_5] for the first window and [Unknown]
    for every other one: the labels [Wave_1] to [Wave_4] are never a
    target. *)
Theorem label_and_prepare_class_targets (df : DataFrame) :
  exists df' X y_class y_reg,
    label_and_prepare df = inr (df', (X, y_class, y_reg)) /\
    y_class = firstn (length (rows df) - 5)
                     ("Wave_5"%string :: repeat "Unknown"%string (length (rows df) - 6)).
Proof.
  do 4 eexists. split; [apply label_and_prepare_closed|].
  destruct (length (rows df) - 5)%nat as [|m] eqn:E; [reflexivity|].
  replace (length (rows df) - 6)%nat with m by lia.
  cbn [seq map firstn]. f_equal.
  rewrite labels_after_fifth by lia.
  symmetry. apply firstn_all2. rewrite repeat_length. lia.
Qed.

(** X12.  Preparing the table a second time changes nothing: the table the
    first call left is left as it is, and the same training set comes back. *)
Theorem label_and_prepare_again (df : DataFrame) :
  exists df' ts,
    label_and_prepare df = inr (df', ts) /\
    label_and_prepare df' = inr (df', ts).
Proof.
  do 2 eexists. split; [apply label_and_prepare_closed|].
  rewrite label_and_prepare_closed. reflexivity.
Qed.

Lemma window_features_app (rs : list Wave) (w : Wave) (i : nat) :
  (i + 4 <= length rs)%nat ->
  window_features (rs ++ [w]) i = window_features rs i.
Proof.
  intro L. unfold window_features.
  rewrite (firstn4_skipn no_wave) by (rewrite length_app; lia).
  rewrite (firstn4_skipn no_wave rs) by lia.
  rewrite !app_nth1 by lia. reflexivity.
Qed.

Lemma label_and_prepare_rows (df : DataFrame) :
  label_and_prepare df =
  inr (df_set_Label df (map label_of (py_range 0 (df_len df))), training_rows (rows df)).
Proof. exact (label_and_prepare_closed df). Qed.

Lemma training_rows_last (rs : list Wave) (w w' : Wave) :
  training_rows (rs ++ [w]) = training_rows (rs ++ [w']).
Proof.
  unfold training_rows. rewrite !length_app. cbn [length].
  apply f_equal2; [apply f_equal2|].
  - apply map_ext_in. intros i Hi. apply in_seq in Hi.
    rewrite !window_features_app by lia. reflexivity.
  - reflexivity.
  - apply map_ext_in. intros i Hi. apply in_seq in Hi.
    rewrite !app_nth1 by lia. reflexivity.
Qed.

(** X13.  The last wave of the table never enters the training set: neither
    a feature vector nor a target depends on it. *)
Theorem label_and_prepare_ignores_last_wave
  (rs : list Wave) (w w' : Wave) (lab lab' : option (list string)) :
  exists df1 df2 ts,
    label_and_prepare (mk_DataFrame (rs ++ [w]) lab) = inr (df1, ts) /\
    label_and_prepare (mk_DataFrame (rs ++ [w']) lab') = inr (df2, ts).
Proof.
  do 3 eexists. split; [apply label_and_prepare_rows|].
  rewrite label_and_prepare_rows. cbn [rows].
  rewrite (training_rows_last rs w' w). reflexivity.
Qed.




(** * Further properties of triangle detection *)

Lemma windows_length (pv : list Pivot) :
  length (windows pv) = (length pv - 4)%nat.
Proof.
  induction pv as [|p0 t IH]; [reflexivity|].
  destruct t as [|p1 [|p2 [|p3 [|p4 r]]]]; try reflexivity.
  cbn [windows length] in *. rewrite IH. lia.
Qed.

Lemma emission_length (w : window) :
  (length (emission (triangle_rule w)) <= 1)%nat.
Proof. destruct (triangle_rule w); cbn; lia. Qed.

Lemma flat_map_emission_length (ws : list window) :
  (length (flat_map (fun w => emission (triangle_rule w)) ws) <= length ws)%nat.
Proof.
  induction ws as [|w ws IH]; [cbn; lia|].
  cbn [flat_map length]. rewrite length_app.
  pose proof (emission_length w). lia.
Qed.

Lemma emission_middle (p0 p1 p2 p3 p4 : Pivot) :
  Forall (fun e => fst e = index p2 /\ triangle_name (snd e))
         (emission (triangle_rule (p0, p1, p2, p3, p4))).
Proof.
  unfold triangle_rule, triangle_name.
  repeat match goal with |- context [if ?c then _ else _] => destruct c end;
    cbn [emission];
    first [ constructor; [split; [reflexivity | cbn [snd]; auto] | constructor]
          | constructor ].
Qed.

Lemma triangles_from_third (pv : list Pivot) :
  Forall (fun e => In (fst e) (map index (skipn 2 pv)) /\ triangle_name (snd e))
         (flat_map (fun w => emission (triangle_rule w)) (windows pv)).
Proof.
  induction pv as [|p0 t IH]; [constructor|].
  destruct t as [|p1 [|p2 [|p3 [|p4 r]]]]; try constructor.
  change (windows (p0 :: p1 :: p2 :: p3 :: p4 :: r))
    with ((p0, p1, p2, p3, p4) :: windows (p1 :: p2 :: p3 :: p4 :: r)).
  cbn [flat_map]. apply Forall_app. split.
  - eapply Forall_impl; [|apply emission_middle].
    intros e [E N]. split; [|exact N]. rewrite E. cbn [skipn map]. left. reflexivity.
  - eapply Forall_impl; [|exact IH].
    intros e [I N]. split; [|exact N]. cbn [skipn map] in *. right. exact I.
Qed.

(** X15.  With fewer than five pivots [detect_triangles] returns no
    pattern, and no error. *)
Theorem detect_triangles_short (pv : list Pivot) :
  (length pv < 5)%nat -> detect_triangles pv = inr [].
Proof.
  intro L. rewrite detect_triangles_closed, windows_short by exact L. reflexivity.
Qed.

Lemma detect_triangles_short_witness :
  detect_triangles [(0, 10%Q); (3, 8%Q); (5, 15%Q)] = inr [].
Proof. apply detect_triangles_short. cbn. lia. Defined.

(** X16.  [detect_triangles] never raises.  It emits at most one pattern
    per window of five pivots, [len(pivots) - 4] at most; the index of each
    pattern is the index of a pivot from the third one on, and its name is
    one of the three triangle names. *)
Theorem detect_triangles_emissions (pv : list Pivot) :
  exists ps,
    detect_triangles pv = inr ps /\
    (length ps <= length pv - 4)%nat /\
    Forall (fun e => In (fst e) (map index (skipn 2 pv)) /\ triangle_name (snd e)) ps.
Proof.
  eexists. split; [apply detect_triangles_closed|]. split.
  - rewrite <- windows_length. apply flat_map_emission_length.
  - apply triangles_from_third.
Qed.

Lemma triangles_sorted (pv : list Pivot) :
  StronglySorted Z.lt (map index pv) ->
  StronglySorted Z.lt
    (map fst (flat_map (fun w => emission (triangle_rule w)) (windows pv))).
Proof.
  induction pv as [|p0 t IH]; intro S; [constructor|].
  destruct t as [|p1 [|p2 [|p3 [|p4 r]]]]; try constructor.
  change (windows (p0 :: p1 :: p2 :: p3 :: p4 :: r))
    with ((p0, p1, p2, p3, p4) :: windows (p1 :: p2 :: p3 :: p4 :: r)).
  cbn [flat_map]. rewrite map_app.
  inversion S as [|? ? S1 _]; subst. specialize (IH S1).
  pose proof (triangles_from_third (p1 :: p2 :: p3 :: p4 :: r)) as T.
  cbn [skipn] in T.
  assert (Later : Forall (fun i => index p2 < i)
            (map fst (flat_map (fun w => emission (triangle_rule w))
                               (windows (p1 :: p2 :: p3 :: p4 :: r))))).
  { apply Forall_map. eapply Forall_impl; [|exact T]. intros e [I _].
    cbn [map] in S1.
    inversion S1 as [|? ? S2 _]; subst. inversion S2 as [|? ? _ F2]; subst.
    rewrite Forall_forall in F2. apply F2. exact I. }
  pose proof (emission_middle p0 p1 p2 p3 p4) as M.
  pose proof (emission_length (p0, p1, p2, p3, p4)) as K.
  destruct (emission (triangle_rule (p0, p1, p2, p3, p4))) as [|e [|e' es]].
  - exact IH.
  - inversion M as [|? ? [E _] _]; subst. cbn [map app]. rewrite E.
    constructor; assumption.
  - cbn [length] in K. lia.
Qed.

(** X17.  When the pivot indices increase strictly, so do the indices of
    the patterns emitted: a pivot carries at most one pattern. *)
Theorem detect_triangles_increasing (pv : list Pivot) :
  StronglySorted Z.lt (map index pv) ->
  exists ps,
    detect_triangles pv = inr ps /\ StronglySorted Z.lt (map fst ps).
Proof.
  intro S. eexists. split; [apply detect_triangles_closed|].
  apply triangles_sorted. exact S.
Qed.

Lemma detect_triangles_increasing_witness :
  exists ps,
    detect_triangles [(0, 100%Q); (1, 50%Q); (2, 100%Q); (3, 55%Q); (4, 100%Q); (5, 60%Q)]
      = inr ps /\
    StronglySorted Z.lt (map fst ps).
Proof.
  apply detect_triangles_increasing. cbn [map index fst].
  repeat (constructor; [|repeat (constructor; [reflexivity|]); constructor]).
  constructor.
Defined.

(** * Further properties of the analysis run *)

Section RunMore.

Variable np_std : list Q -> float64.
Variables classifier regressor : Type.
Variable RandomForestClassifier_fit : list (list float64) -> list string -> classifier.
Variable RandomForestRegressor_fit : list (list float64) -> list float64 -> regressor.
Variable classifier_predict : classifier -> list (list float64) -> list string.
Variable regressor_predict : regressor -> list (list float64) -> list float64.

Let run : list Q -> Q -> result (list event) :=
  run_analysis np_std classifier regressor
               RandomForestClassifier_fit RandomForestRegressor_fit
               classifier_predict regressor_predict.

(** X18.  The stages before the guard raise exactly on the empty price
    array: there the run ends in [IndexError] (from [prices[0]] in
    [zigzag_detector]) and shows nothing, not even the not-enough-data
    message; on any other array pivots, triangles, wave table and training
    set are all delivered. *)
Theorem run_analysis_raises_iff_empty (prices : list Q) (threshold : Q) :
  (prices = [] /\ run prices threshold = inl IndexError) \/
  (prices <> [] /\
   exists pv triangles waves_df ts,
     prepare_run np_std prices threshold = inr (pv, triangles, waves_df, ts)).
Proof.
  destruct prices as [|p0 ps].
  - left. split; reflexivity.
  - right. split; [discriminate|].
    destruct (prepare_run_returns np_std (p0 :: ps) threshold)
      as (pv & triangles & waves_df & X & y_class & y_reg & E & _);
      [discriminate|].
    exists pv, triangles, waves_df, (X, y_class, y_reg). exact E.
Qed.

Lemma run_analysis_by_pivots (prices : list Q) (threshold : Q) :
  prices <> [] ->
  exists pv,
    zigzag_detector prices threshold = inr pv /\
    (run prices threshold = inr [st_error not_enough_data] <-> (length pv < 8)%nat).
Proof.
  intro NE.
  destruct (prepare_run_returns np_std prices threshold NE)
    as (pv & triangles & waves_df & X & y_class & y_reg & E & Ez & Er & L).
  exists pv. split; [exact Ez|].
  assert (K : length X = (length pv - 6)%nat).
  { rewrite L, Er. unfold extract_wave_features. cbn [rows pd_DataFrame].
    rewrite wave_rows_length. lia. }
  destruct (Nat.lt_ge_cases (length X) 2) as [F|F].
  - split; [intros _; lia|]. intros _.
    eapply run_analysis_few; eassumption.
  - split; [|intro; lia]. intro R. exfalso.
    eapply run_analysis_enough; eassumption.
Qed.

(** X19.  On a non-empty series the run reports not enough data exactly
    when [zigzag_detector] finds fewer than 8 pivots: a forecast takes 7
    waves, which give the 2 training rows of the guard. *)
Theorem run_analysis_needs_eight_pivots (prices : list Q) (threshold : Q) :
  prices <> [] ->
  exists pv,
    zigzag_detector prices threshold = inr pv /\
    (run prices threshold = inr [st_error not_enough_data] <-> (length pv < 8)%nat).
Proof. apply run_analysis_by_pivots. Qed.

(** X20.  A series of 1 to 7 prices always ends in the not-enough-data
    message, whatever the prices and the threshold. *)
Theorem run_analysis_short_series (prices : list Q) (threshold : Q) :
  prices <> [] -> (length prices < 8)%nat ->
  run prices threshold = inr [st_error not_enough_data].
Proof.
  intros NE L.
  destruct (run_analysis_by_pivots prices threshold NE) as (pv & E & R).
  destruct (zigzag_detector_count prices threshold NE) as (pv' & E' & C).
  assert (pv' = pv) by congruence. subst pv'.
  apply R. lia.
Qed.

End RunMore.

Lemma run_analysis_short_series_witness :
  run_analysis (fun _ => Fin 0) unit unit (fun _ _ => tt) (fun _ _ => tt)
    (fun _ _ => []) (fun _ _ => []) [10; 11; 12; 8; 9; 15]%Q 0.2%Q =
  inr [st_error not_enough_data].
Proof.
  apply run_analysis_short_series; [discriminate | cbn; lia].
Defined.

Lemma run_analysis_needs_eight_pivots_witness :
  exists pv,
    zigzag_detector [10; 11; 12; 8; 9; 15]%Q 0.2%Q = inr pv /\
    (run_analysis (fun _ => Fin 0) unit unit (fun _ _ => tt) (fun _ _ => tt)
       (fun _ _ => []) (fun _ _ => []) [10; 11; 12; 8; 9; 15]%Q 0.2%Q =
     inr [st_error not_enough_data] <-> (length pv < 8)%nat).
Proof. apply run_analysis_needs_eight_pivots. discriminate. Defined.

(** * The chart *)

Lemma df_index_valid (prices : list Q) (k : nat) :
  (k < length prices)%nat -> df_index prices (Z.of_nat k) = ret (Z.of_nat k).
Proof.
  intro K. unfold df_index. apply py_index_nat.
  rewrite py_range_0, nth_error_map, nth_error_seq.
  replace (Nat.ltb k (length prices)) with true by (symmetry; apply Nat.ltb_lt; lia).
  reflexivity.
Qed.

(** X22.  The forecast line is vertical.  The last pivot is always the last
    bar, so the line starts at the last bar, at the last price, and
    [min(len(df) - 1, pivots[-1][0] + 5)] is the last bar again; the
    coordinates are computed without an error. *)
Theorem forecast_line_vertical (prices : list Q) (threshold : Q) :
  prices <> [] ->
  exists pv,
    zigzag_detector prices threshold = inr pv /\
    forall price_pred,
      forecast_shape prices pv price_pred =
      inr (mk_line (Z.of_nat (length prices) - 1) (List.last prices 0%Q)
                   (Z.of_nat (length prices) - 1)
                   (np_mul (List.last prices 0%Q) (np_add1 price_pred))).
Proof.
  destruct prices as [|p0 ps]; [congruence|]. intros _.
  rewrite zigzag_detector_cons. eexists. split; [reflexivity|]. intro c.
  set (n := length (p0 :: ps)).
  set (plast := List.last (p0 :: ps) p0).
  assert (N : (0 < n)%nat) by (subst n; cbn; lia).
  unfold forecast_shape.
  rewrite (py_index_last _ (0, 0%Q)) by (destruct (pivots _); discriminate).
  rewrite last_last. unfold bind at 1. unfold ret at 1. unfold index. cbv beta iota delta [fst].
  assert (P : py_index (p0 :: ps) (Z.of_nat n - 1) = ret plast).
  { replace (Z.of_nat n - 1) with (Z.of_nat (n - 1)) by lia.
    apply py_index_nat, nth_error_last. discriminate. }
  assert (D : df_index (p0 :: ps) (Z.of_nat n - 1) = ret (Z.of_nat n - 1)).
  { replace (Z.of_nat n - 1) with (Z.of_nat (n - 1)) by lia.
    apply df_index_valid. fold n. lia. }
  rewrite P. cbv beta iota delta [bind ret]. fold n.
  replace (Z.min (Z.of_nat n - 1) (Z.of_nat n - 1 + 5)) with (Z.of_nat n - 1) by lia.
  rewrite D. cbv beta iota delta [ret]. rewrite P. cbv beta iota delta [ret].
  rewrite (last_indep (p0 :: ps) 0%Q p0) by discriminate. reflexivity.
Qed.

Lemma forecast_line_vertical_witness :
  exists pv,
    zigzag_detector [10; 11; 12; 8; 9; 15]%Q 0.2%Q = inr pv /\
    forall price_pred,
      forecast_shape [10; 11; 12; 8; 9; 15]%Q pv price_pred =
      inr (mk_line (Z.of_nat (length [10; 11; 12; 8; 9; 15]%Q) - 1)
                   (List.last [10; 11; 12; 8; 9; 15]%Q 0%Q)
                   (Z.of_nat (length [10; 11; 12; 8; 9; 15]%Q) - 1)
                   (np_mul (List.last [10; 11; 12; 8; 9; 15]%Q 0%Q) (np_add1 price_pred))).
Proof. apply forecast_line_vertical. discriminate. Defined.




(** X24.  Every position of the threshold slider, from 1.0 to 10.0, gives
    [zigzag_detector] a threshold between 0.01 and 0.1. *)
Theorem slider_threshold_bounds (v : Q) :
  (slider_min <= v)%Q -> (v <= slider_max)%Q ->
  (0.01 <= slider_threshold v)%Q /\ (slider_threshold v <= 0.1)%Q.
Proof.
  unfold slider_min, slider_max, slider_threshold. intros L U. split.
  - apply Qle_shift_div_l; [reflexivity | lra].
  - apply Qle_shift_div_r; [reflexivity | lra].
Qed.

Lemma slider_threshold_bounds_witness :
  (0.01 <= slider_threshold 3.5)%Q /\ (slider_threshold 3.5 <= 0.1)%Q.
Proof. apply slider_threshold_bounds; discriminate. Defined.
